(** * Exchange Calc: the numeric text field and the derived results

    A shallow embedding of [src/App.tsx]: the helper [formatNumber], the
    [InputField] component (its display-sync effect, [handleChange] and
    [handleBlur]) and the four derived results of [CurrencyConverterApp],
    over a model of the JavaScript primitives they call.

    JavaScript strings are modelled as [string] (the characters the code
    looks at, digits, ".", "," are single ASCII characters in either
    encoding; a character outside ASCII is held as its UTF-8 bytes).
    JavaScript numbers are IEEE 754 binary64 values, modelled as
    [spec_float] with 53 bits of precision.  The primitives ([parseFloat],
    [toLocaleString], [split], ...) belong to the host platform, not to
    the repository; they are modelled as ECMAScript defines them and, for
    number formatting, as the platform's formatter prints (the shortest
    decimal of the Number, rounded half away from zero), for the
    arguments the code passes. *)

From Stdlib Require Import ZArith List Bool Ascii String Lia.
From Stdlib Require Import Floats.SpecFloat.
Import ListNotations.

Open Scope string_scope.

(* ================================================================= *)
(** * Part I: definitions *)
(* ================================================================= *)

(** ** JavaScript string primitives *)

Module JsString.

(** The character class [0-9]. *)
Definition isDigit (c : ascii) : bool :=
  let n := nat_of_ascii c in (48 <=? n)%nat && (n <=? 57)%nat.

Definition isDot (c : ascii) : bool := Ascii.eqb c ".".

(** The character class [0-9.] of the regular expression in [handleChange]. *)
Definition inClass09Dot (c : ascii) : bool := isDigit c || isDot c.

(** [s.replace(/[^cls]/g, '')]: every character outside the class is
    replaced by the empty string. *)
Fixpoint replaceOutside (cls : ascii -> bool) (s : string) : string :=
  match s with
  | EmptyString => EmptyString
  | String c s' =>
      if cls c then String c (replaceOutside cls s') else replaceOutside cls s'
  end.

(** [s.split(sep)] for a one-character separator; the result is never
    empty: [''.split('.')] is [['']]. *)
Fixpoint split (sep : ascii) (s : string) : list string :=
  match s with
  | EmptyString => [EmptyString]
  | String c s' =>
      if Ascii.eqb c sep then EmptyString :: split sep s'
      else match split sep s' with
           | p :: ps => String c p :: ps
           | [] => [String c EmptyString]
           end
  end.

(** [parts.join(sep)]. *)
Definition join (sep : string) (parts : list string) : string :=
  String.concat sep parts.

(** [parts.slice(1)]. *)
Definition slice1 (parts : list string) : list string := tl parts.

(** [parts[0]] used as a string operand: a missing element would be
    [undefined], which concatenates as the text "undefined". *)
Definition at0 (parts : list string) : string := hd "undefined" parts.

(** [s.endsWith(t)]. *)
Fixpoint endsWith (s t : string) : bool :=
  String.eqb s t ||
  match s with
  | EmptyString => false
  | String _ s' => endsWith s' t
  end.

(** A string used as a condition: the empty string is the only falsy one. *)
Definition truthy (s : string) : bool := negb (String.eqb s "").

(** [n] copies of [s], for a count that is in range. *)
Fixpoint repeatN (s : string) (n : nat) : string :=
  match n with
  | O => EmptyString
  | S n' => s ++ repeatN s n'
  end.

End JsString.

(** ** Exceptions *)

(** The only exception the primitives used here can raise. *)
Inductive exn := RangeError.

Inductive result (A : Type) : Type :=
| Ok (a : A)
| Throw (e : exn).
Arguments Ok {A} a.
Arguments Throw {A} e.

Definition bind {A B} (r : result A) (k : A -> result B) : result B :=
  match r with
  | Ok a => k a
  | Throw e => Throw e
  end.

Notation "x <- r ;; k" := (bind r (fun x => k))
  (at level 61, r at next level, right associativity).

(** [s.repeat(count)]: a negative count raises [RangeError]. *)
Definition repeat (s : string) (count : Z) : result string :=
  if (count <? 0)%Z then Throw RangeError
  else Ok (JsString.repeatN s (Z.to_nat count)).

(** ** JavaScript numbers *)

Module JsNumber.
Import JsString.

(** A Number is a binary64 floating-point value. *)
Definition number : Type := spec_float.
Definition prec : Z := 53.
Definition emax : Z := 1024.

Definition zero : number := S754_zero false.
Definition NaN : number := S754_nan.

(** The global [isNaN], on an argument that is already a Number. *)
Definition isNaN (x : number) : bool :=
  match x with S754_nan => true | _ => false end.


(** [x === y] on Numbers: numeric equality, false on NaN, true on the
    two zeros. *)
Definition strictEq (x y : number) : bool := SFeqb x y.

(** [x / y] and [x * y]. *)
Definition div (x y : number) : number := SFdiv prec emax x y.
Definition mul (x y : number) : number := SFmul prec emax x y.

(** *** Rounding a positive rational to the nearest Number *)

(** The integer nearest to [a / b], the even one at a tie ([0 < b]). *)
Definition roundNearestEven (a b : Z) : Z :=
  let d := (a / b)%Z in
  match (2 * (a mod b) ?= b)%Z with
  | Lt => d
  | Gt => (d + 1)%Z
  | Eq => if Z.even d then d else (d + 1)%Z
  end.

(** The exponent of the smallest subnormal Number, [2 ^ (- 1074)], and of
    the mantissa of the largest finite one. *)
Definition expMin : Z := -1074.
Definition expMax : Z := 971.

(** The Number nearest to [p / q] (ties to even), with the given sign, for
    [0 <= p] and [0 < q].  Exponents are counted from [expMin]: with
    [p / q = (p * 2 ^ 1074 / q) * 2 ^ expMin], the mantissa is rounded at
    the exponent that leaves it 53 bits, or at [expMin] for a subnormal
    result; a mantissa rounded up to [2 ^ 53] moves to the next exponent;
    beyond the largest finite Number the result is an infinity. *)
Definition roundRat (neg : bool) (p q : Z) : number :=
  if (p =? 0)%Z then S754_zero neg
  else
    let p' := (p * 2 ^ (- expMin))%Z in
    let e := Z.max (Z.log2 (p' / q) - 52) 0 in
    let m := roundNearestEven p' (q * 2 ^ e) in
    let '(m', e') := if (m =? 2 ^ 53)%Z then (2 ^ 52, e + 1)%Z else (m, e) in
    match m' with
    | Zpos mp => if (expMax - expMin <? e')%Z then S754_infinity neg
                 else S754_finite neg mp (e' + expMin)
    | _ => S754_zero neg
    end.

(** The Number for the decimal [d * 10 ^ e10], [0 <= d]. *)
Definition ofDecimal (neg : bool) (d e10 : Z) : number :=
  if (0 <=? e10)%Z then roundRat neg (d * 10 ^ e10) 1
  else roundRat neg d (10 ^ (- e10)).

(** *** [parseFloat] *)

Definition isAsciiWhiteSpace (c : ascii) : bool :=
  let n := nat_of_ascii c in
  ((9 <=? n)%nat && (n <=? 13)%nat) || (n =? 32)%nat.

(** One white space or line terminator character at the head of the
    text, if any, and the rest of the text; the characters outside
    ASCII by their UTF-8 bytes. *)
Definition dropWhiteSpace (s : string) : option string :=
  match s with
  | EmptyString => None
  | String c r =>
      if isAsciiWhiteSpace c then Some r
      else
        match nat_of_ascii c, r with
        | 194%nat, String c1 r1 =>
            if (nat_of_ascii c1 =? 160)%nat then Some r1 else None
        | 225%nat, String c1 (String c2 r2) =>
            if ((nat_of_ascii c1 =? 154) && (nat_of_ascii c2 =? 128))%nat
            then Some r2 else None
        | 226%nat, String c1 (String c2 r2) =>
            let n1 := nat_of_ascii c1 in
            let n2 := nat_of_ascii c2 in
            if ((n1 =? 128) && (((128 <=? n2) && (n2 <=? 138)) || (n2 =? 168)
                                || (n2 =? 169) || (n2 =? 175)))%nat
               || ((n1 =? 129) && (n2 =? 159))%nat
            then Some r2 else None
        | 227%nat, String c1 (String c2 r2) =>
            if ((nat_of_ascii c1 =? 128) && (nat_of_ascii c2 =? 128))%nat
            then Some r2 else None
        | 239%nat, String c1 (String c2 r2) =>
            if ((nat_of_ascii c1 =? 187) && (nat_of_ascii c2 =? 191))%nat
            then Some r2 else None
        | _, _ => None
        end
  end.

Fixpoint trimStartFuel (fuel : nat) (s : string) : string :=
  match fuel with
  | O => s
  | S fuel' =>
      match dropWhiteSpace s with
      | Some r => trimStartFuel fuel' r
      | None => s
      end
  end.

(** [s.trimStart()]. *)
Definition trimStart (s : string) : string := trimStartFuel (String.length s) s.

(** The longest prefix of digits, and the rest. *)
Fixpoint spanDigits (s : string) : string * string :=
  match s with
  | EmptyString => (EmptyString, EmptyString)
  | String c s' =>
      if isDigit c
      then let '(d, r) := spanDigits s' in (String c d, r)
      else (EmptyString, s)
  end.

Definition digitValue (c : ascii) : Z := Z.of_nat (nat_of_ascii c) - 48.

Fixpoint decimalValueFrom (acc : Z) (s : string) : Z :=
  match s with
  | EmptyString => acc
  | String c s' => decimalValueFrom (10 * acc + digitValue c) s'
  end.

(** The value of a text of decimal digits. *)
Definition decimalValue (s : string) : Z := decimalValueFrom 0 s.

(** An optional sign at the head of the text: whether it is "-", and the
    rest. *)
Definition signPrefix (s : string) : bool * string :=
  match s with
  | String c r =>
      if Ascii.eqb c "-" then (true, r)
      else if Ascii.eqb c "+" then (false, r)
      else (false, s)
  | EmptyString => (false, s)
  end.

(** The value of the ExponentPart at the head of the text, [0] when
    there is none (an "e" not followed by digits is not one). *)
Definition exponentPart (s : string) : Z :=
  match s with
  | String c r =>
      if Ascii.eqb c "e" || Ascii.eqb c "E"
      then
        let '(neg, r') := signPrefix r in
        let '(d, _) := spanDigits r' in
        if String.eqb d "" then 0%Z
        else if neg then (- decimalValue d)%Z else decimalValue d
      else 0%Z
  | EmptyString => 0%Z
  end.

(** The rest of a text that starts with ".". *)
Definition dotPrefix (s : string) : option string :=
  match s with
  | String c r => if isDot c then Some r else None
  | EmptyString => None
  end.

(** The longest prefix that is a StrUnsignedDecimalLiteral. *)
Inductive literal :=
| LitInfinity
| LitDecimal (intDigits fracDigits : string) (exponent : Z).

Definition unsignedLiteral (s : string) : option literal :=
  if String.prefix "Infinity" s then Some LitInfinity
  else
    let '(i, r) := spanDigits s in
    match dotPrefix r with
    | Some r1 =>
        let '(f, r2) := spanDigits r1 in
        if String.eqb i "" && String.eqb f "" then None
        else Some (LitDecimal i f (exponentPart r2))
    | None =>
        if String.eqb i "" then None
        else Some (LitDecimal i "" (exponentPart r))
    end.

(** [parseFloat(s)]: leading white space is skipped, the longest prefix
    that is a decimal literal is converted, and the result is NaN when
    there is no such prefix. *)
Definition parseFloat (s : string) : number :=
  let '(neg, u) := signPrefix (trimStart s) in
  match unsignedLiteral u with
  | None => NaN
  | Some LitInfinity => S754_infinity neg
  | Some (LitDecimal i f e) =>
      ofDecimal neg (decimalValue (i ++ f)) (e - Z.of_nat (String.length f))
  end.

(** *** [toLocaleString('en-US', ...)] *)

Definition digitChar (d : Z) : ascii := ascii_of_nat (Z.to_nat (48 + d)).

(** The [k] low decimal digits of [n]. *)
Fixpoint fixedDigits (k : nat) (n : Z) : string :=
  match k with
  | O => EmptyString
  | S k' => fixedDigits k' (n / 10) ++ String (digitChar (n mod 10)) EmptyString
  end.

Definition isZeroChar (c : ascii) : bool := Ascii.eqb c "0".

Fixpoint stripLeadingZeros (s : string) : string :=
  match s with
  | String c s' => if isZeroChar c then stripLeadingZeros s' else s
  | EmptyString => s
  end.

(** The decimal digits of [n], [0 <= n], without leading zeros. *)
Definition decimalDigits (n : Z) : string :=
  match stripLeadingZeros (fixedDigits (S (Z.to_nat (Z.log2 n))) n) with
  | EmptyString => "0"
  | s => s
  end.

(** Grouping separators: a "," before each group of three digits. *)
Fixpoint groupThousands (s : string) : string :=
  match s with
  | EmptyString => EmptyString
  | String c s' =>
      String c
        (if (0 <? String.length s')%nat && (String.length s' mod 3 =? 0)%nat
         then String "," (groupThousands s') else groupThousands s')
  end.

Fixpoint allZeros (s : string) : bool :=
  match s with
  | EmptyString => true
  | String c s' => isZeroChar c && allZeros s'
  end.

(** The fraction digits to show: trailing zeros are dropped, but not
    among the first [minFD] digits. *)
Fixpoint trimFraction (minFD : nat) (f : string) : string :=
  match f with
  | EmptyString => EmptyString
  | String c f' =>
      match minFD with
      | S m => String c (trimFraction m f')
      | O => if allZeros f then EmptyString else String c (trimFraction O f')
      end
  end.

(** *** The shortest decimal of a Number *)

(** The multiple of [10 ^ q] nearest to [m * 2 ^ e], the even one at a
    tie, as its count of steps [j]: the value is [j * 10 ^ q]. *)
Definition nearestMultiple (m : positive) (e q : Z) : Z :=
  roundNearestEven (Zpos m * 2 ^ Z.max e 0 * 10 ^ Z.max (- q) 0)
                   (2 ^ Z.max (- e) 0 * 10 ^ Z.max q 0).

(** Whether the decimal [j * 10 ^ q] reads back as the Number [m * 2 ^ e]. *)
Definition readsBack (m : positive) (e j q : Z) : bool :=
  match ofDecimal false j q with
  | S754_finite _ m' e' => Pos.eqb m' m && Z.eqb e' e
  | _ => false
  end.

(** The exact decimal expansion of [m * 2 ^ e]. *)
Definition exactDecimal (m : positive) (e : Z) : Z * Z :=
  if (0 <=? e)%Z then (Zpos m * 2 ^ e, 0)%Z else (Zpos m * 5 ^ (- e), e)%Z.

(** From the level [q] down, the first level at which the nearest
    multiple of [10 ^ q] reads back as the Number. *)
Fixpoint shortestFrom (fuel : nat) (m : positive) (e q : Z) : Z * Z :=
  match fuel with
  | O => exactDecimal m e
  | S fuel' =>
      let j := nearestMultiple m e q in
      if readsBack m e j q then (j, q) else shortestFrom fuel' m e (q - 1)
  end.

(** More levels than there are between the largest power of ten a
    binary64 value can reach and its exact expansion. *)
Definition searchDepth : nat := 1200.

(** The shortest decimal [j * 10 ^ q] that reads back as the Number
    [m * 2 ^ e], the nearest one when there are several: the digits
    [Number::toString] prints.  The search starts at a power of ten above
    the Number ([m * 2 ^ e < 2 ^ l <= 10 ^ (l / 3 + 1)] with [l] the
    number of bits of its integer part), where no multiple reads back. *)
Definition shortestDecimal (m : positive) (e : Z) : Z * Z :=
  shortestFrom searchDepth m e (Z.max ((Z.log2 (Zpos m) + e + 1) / 3) 0 + 1).

(** The decimal [j * 10 ^ q] in units of [10 ^ (- f)], rounded to an
    integer, halves away from zero. *)
Definition roundDecimal (d : Z * Z) (f : nat) : Z :=
  let '(j, q) := d in
  let s := (q + Z.of_nat f)%Z in
  if (0 <=? s)%Z then (j * 10 ^ s)%Z
  else ((2 * j + 10 ^ (- s)) / (2 * 10 ^ (- s)))%Z.

Definition signText (neg : bool) : string := if neg then "-" else "".

(** The magnitude [n / 10 ^ maxFD] as grouped decimal text. *)
Definition groupedDecimal (minFD maxFD : nat) (n : Z) : string :=
  let scale := (10 ^ Z.of_nat maxFD)%Z in
  let f := trimFraction minFD (fixedDigits maxFD (n mod scale)) in
  groupThousands (decimalDigits (n / scale))
    ++ (if String.eqb f "" then "" else "." ++ f).

(** Decimal notation in the en-US locale with between [minFD] and
    [maxFD] fraction digits, as the platform's number formatter prints
    it: the shortest decimal that reads back as the Number is rounded to
    [maxFD] fraction digits, halves away from zero. *)
Definition formatDecimal (minFD maxFD : nat) (x : number) : string :=
  match x with
  | S754_nan => "NaN"
  | S754_infinity s => signText s ++ "∞"
  | S754_zero s => signText s ++ groupedDecimal minFD maxFD 0
  | S754_finite s m e =>
      signText s
        ++ groupedDecimal minFD maxFD (roundDecimal (shortestDecimal m e) maxFD)
  end.

(** [x.toLocaleString('en-US')]: the defaults are no minimum and three
    fraction digits at most. *)
Definition toLocaleString (x : number) : string := formatDecimal 0 3 x.

(** The largest number of fraction digits the options accept (100 since
    ECMAScript 2023, 20 before). *)
Definition maxFractionDigits : Z := 100.

(** [x.toLocaleString('en-US', { minimumFractionDigits: minFD,
    maximumFractionDigits: maxFD })] for integer options: an option
    out of range, or a minimum above the maximum, raises [RangeError]. *)
Definition toLocaleStringWith (minFD maxFD : Z) (x : number) : result string :=
  if ((minFD <? 0) || (maxFractionDigits <? minFD)
      || (maxFD <? 0) || (maxFractionDigits <? maxFD) || (maxFD <? minFD))%Z
  then Throw RangeError
  else Ok (formatDecimal (Z.to_nat minFD) (Z.to_nat maxFD) x).

End JsNumber.

(** ** [formatNumber] *)

Module Helpers.
Import JsString JsNumber.

(** [formatNumber(num, decimals)]; [Number(num)] is [num] itself.  The
    default of [decimals] is [defaultDecimals]. *)
Definition defaultDecimals : Z := 2.

Definition formatNumber (num : number) (decimals : Z) : result string :=
  if isNaN num || strictEq num zero
  then zeros <- repeat "0" decimals ;; Ok ("0." ++ zeros)
  else toLocaleStringWith decimals decimals num.

End Helpers.

(** ** The input field *)

Module InputField.
Import JsString JsNumber.

(** The state the component reads: the [value] prop, which the parent
    owns and [onChange] sets, and its own [displayValue]. *)
Record field := { value : string; displayValue : string }.

(** The calls a handler makes, in order. *)
Inductive call :=
| SetDisplayValue (s : string)
| OnChange (s : string).

(** The text the effect on [value] passes to [setDisplayValue]. *)
Definition displayFor (value : string) : string :=
  if String.eqb value "" then ""
  else
    let num := parseFloat value in
    if endsWith value "." && negb (isNaN num) then toLocaleString num ++ "."
    else if negb (isNaN num) then toLocaleString num
    else value.

(** The value [handleChange] computes from the text of the input
    element, [cleanedValue] at the point where it is stored and emitted. *)
Definition cleanedValue (input : string) : string :=
  let cleaned := replaceOutside inClass09Dot input in
  let parts := split "." cleaned in
  if (2 <? List.length parts)%nat
  then at0 parts ++ "." ++ join "" (slice1 parts)
  else cleaned.

Definition handleChange (input : string) : list call :=
  let cleaned := cleanedValue input in
  [SetDisplayValue cleaned; OnChange cleaned].

Definition handleBlur (value : string) : list call :=
  if negb (String.eqb value "") then
    let num := parseFloat value in
    if negb (isNaN num) then [SetDisplayValue (toLocaleString num)]
    else [SetDisplayValue ""; OnChange ""]
  else [SetDisplayValue ""].

(** Every parent passes a state setter as [onChange], so [OnChange s]
    makes [s] the next [value]. *)
Definition perform (f : field) (c : call) : field :=
  match c with
  | SetDisplayValue s => {| value := value f; displayValue := s |}
  | OnChange s => {| value := s; displayValue := displayValue f |}
  end.

(** After the handler the component renders again, and the effect runs
    when [value], its only dependency, has changed. *)
Definition commit (before after : field) : field :=
  if String.eqb (value before) (value after) then after
  else {| value := value after; displayValue := displayFor (value after) |}.

Definition dispatch (calls : list call) (f : field) : field :=
  commit f (fold_left perform calls f).

Definition blur (f : field) : field := dispatch (handleBlur (value f)) f.
Definition change (input : string) (f : field) : field :=
  dispatch (handleChange input) f.

End InputField.

(** ** The derived results of [CurrencyConverterApp] *)

Module App.
Import JsString JsNumber.

Definition pkrToPhpResult (pkrAmount1 rate1 : string) : number :=
  if truthy rate1 && truthy pkrAmount1
     && negb (isNaN (parseFloat pkrAmount1)) && negb (isNaN (parseFloat rate1))
  then div (parseFloat pkrAmount1) (parseFloat rate1) else zero.

Definition phpToPkrResult (phpAmount1 rate2 : string) : number :=
  if truthy rate2 && truthy phpAmount1
     && negb (isNaN (parseFloat phpAmount1)) && negb (isNaN (parseFloat rate2))
  then mul (parseFloat phpAmount1) (parseFloat rate2) else zero.

Definition directPkrPhpRate (pkrAmount2 phpAmount2 : string) : number :=
  if truthy phpAmount2 && truthy pkrAmount2
     && negb (isNaN (parseFloat pkrAmount2)) && negb (isNaN (parseFloat phpAmount2))
  then div (parseFloat pkrAmount2) (parseFloat phpAmount2) else zero.

Definition crossUsdRate (usdPkrRate usdPhpRate : string) : number :=
  if truthy usdPhpRate && truthy usdPkrRate
     && negb (isNaN (parseFloat usdPkrRate)) && negb (isNaN (parseFloat usdPhpRate))
  then div (parseFloat usdPkrRate) (parseFloat usdPhpRate) else zero.

End App.

(** ** Vocabulary of the properties *)

Module Props.
Import JsString.

Fixpoint allChars (p : ascii -> bool) (s : string) : bool :=
  match s with
  | EmptyString => true
  | String c s' => p c && allChars p s'
  end.

Fixpoint countDots (s : string) : nat :=
  match s with
  | EmptyString => O
  | String c s' => (if isDot c then 1 else 0) + countDots s'
  end.

(** The digits of a string, in their order. *)
Definition digitsOf (s : string) : string := replaceOutside isDigit s.

(** The text before the first ".", the whole text when there is none. *)
Fixpoint beforeFirstDot (s : string) : string :=
  match s with
  | EmptyString => EmptyString
  | String c s' => if isDot c then EmptyString else String c (beforeFirstDot s')
  end.

(** The text after the first ".", empty when there is none. *)
Fixpoint afterFirstDot (s : string) : string :=
  match s with
  | EmptyString => EmptyString
  | String c s' => if isDot c then s' else afterFirstDot s'
  end.

(** A display text with its grouping separators removed. *)
Definition removeGrouping (s : string) : string :=
  replaceOutside (fun c => negb (Ascii.eqb c ",")) s.

(** The number of characters after the first ".". *)
Definition fractionDigits (s : string) : nat := String.length (afterFirstDot s).

(** RawAmount of the data model: characters of [0-9.] only, at most one ".". *)
Definition isRawAmount (s : string) : bool :=
  allChars inClass09Dot s && (countDots s <=? 1)%nat.

End Props.

(** ** Events on a field *)

Module Events.
Import InputField.

(** A change of the text of the input element, or the loss of focus. *)
Inductive event :=
| Change (input : string)
| Blur.

Definition step (f : field) (e : event) : field :=
  match e with
  | Change input => change input f
  | Blur => blur f
  end.

Definition run (es : list event) (f : field) : field := fold_left step es f.

(** The field as it is mounted: both states start as the empty text. *)
Definition initial : field := {| value := ""; displayValue := "" |}.

End Events.

(** ** [ResultDisplay] and the four panels *)

Module Panels.
Import JsNumber Helpers App.

(** The text [ResultDisplay] renders; [decimals] is optional. *)
Definition ResultDisplay (value : number) (decimals : option Z) : result string :=
  formatNumber value
    (match decimals with Some d => d | None => defaultDecimals end).

(** The eight texts [CurrencyConverterApp] holds. *)
Record amounts := {
  pkrAmount1 : string; rate1 : string;
  phpAmount1 : string; rate2 : string;
  pkrAmount2 : string; phpAmount2 : string;
  usdPkrRate : string; usdPhpRate : string
}.

(** The texts of the four result panels, rendered in their order. *)
Definition resultTexts (s : amounts) : result (list string) :=
  t1 <- ResultDisplay (pkrToPhpResult (pkrAmount1 s) (rate1 s)) (Some 0%Z) ;;
  t2 <- ResultDisplay (phpToPkrResult (phpAmount1 s) (rate2 s)) (Some 0%Z) ;;
  t3 <- ResultDisplay (directPkrPhpRate (pkrAmount2 s) (phpAmount2 s)) (Some 2%Z) ;;
  t4 <- ResultDisplay (crossUsdRate (usdPkrRate s) (usdPhpRate s)) (Some 2%Z) ;;
  Ok [t1; t2; t3; t4].

End Panels.

(** ** The theme toggle *)

Module Theme.

(** [classList] of the root element: tokens in order, each once. *)
Definition contains (classes : list string) (token : string) : bool :=
  existsb (String.eqb token) classes.

Definition add (token : string) (classes : list string) : list string :=
  if contains classes token then classes else classes ++ [token].

Definition remove (token : string) (classes : list string) : list string :=
  filter (fun t => negb (String.eqb t token)) classes.

(** The [darkMode] state and the classes of [document.documentElement]. *)
Record theme := { darkMode : bool; rootClasses : list string }.

Definition toggleDarkMode (s : theme) : theme :=
  let newMode := negb (darkMode s) in
  {| darkMode := newMode;
     rootClasses := if newMode then add "dark" (rootClasses s)
                    else remove "dark" (rootClasses s) |}.

(** The effect run once at mount; [prefersDark] is whether [matchMedia]
    exists and reports a dark colour scheme. *)
Definition initDarkMode (prefersDark : bool) (s : theme) : theme :=
  if prefersDark
  then {| darkMode := true; rootClasses := add "dark" (rootClasses s) |}
  else s.

End Theme.

(** ** Further vocabulary *)

Module Vocabulary.
Import JsString JsNumber Props InputField.

(** A text of digits without its leading zeros, "0" when nothing is left. *)
Definition canonicalDigits (s : string) : string :=
  match stripLeadingZeros s with
  | EmptyString => "0"
  | t => t
  end.

(** A Number that is not negative: NaN, or a value whose sign is clear. *)
Definition notNegative (x : number) : bool :=
  match x with
  | S754_nan => true
  | S754_zero s | S754_infinity s | S754_finite s _ _ => negb s
  end.

Definition isInfinity (x : number) : bool :=
  match x with S754_infinity _ => true | _ => false end.

(** What every event keeps of a field. *)
Definition fieldInvariant (f : field) : Prop :=
  isRawAmount (value f) = true /\ (value f = "" -> displayValue f = "").

End Vocabulary.

(* ================================================================= *)
(** * Part II: properties *)
(* ================================================================= *)

Module StringFacts.
Import JsString Props.

Lemma isDot_eq c : isDot c = true -> c = "."%char.
Proof. unfold isDot. apply Ascii.eqb_eq. Qed.

Lemma isDigit_not_dot c : isDigit c = true -> isDot c = false.
Proof.
  intros H. destruct (isDot c) eqn:E; [|reflexivity].
  apply isDot_eq in E. subst c. discriminate H.
Qed.

Lemma append_nil_r s : s ++ "" = s.
Proof. induction s; simpl; congruence. Qed.

Lemma append_assoc (a b c : string) : (a ++ b) ++ c = a ++ (b ++ c).
Proof. induction a; simpl; congruence. Qed.

Lemma allChars_app p a b :
  allChars p (a ++ b) = allChars p a && allChars p b.
Proof. induction a; simpl; [reflexivity|]. rewrite IHa, andb_assoc. reflexivity. Qed.

Lemma countDots_app a b : countDots (a ++ b) = (countDots a + countDots b)%nat.
Proof. induction a; simpl; [reflexivity|]. rewrite IHa. lia. Qed.

Lemma replaceOutside_app p a b :
  replaceOutside p (a ++ b) = replaceOutside p a ++ replaceOutside p b.
Proof.
  induction a; simpl; [reflexivity|].
  destruct (p a); simpl; rewrite IHa; reflexivity.
Qed.

Lemma replaceOutside_all p s : allChars p (replaceOutside p s) = true.
Proof.
  induction s; simpl; [reflexivity|].
  destruct (p a) eqn:E; simpl; [rewrite E|]; assumption.
Qed.

Lemma replaceOutside_id p s : allChars p s = true -> replaceOutside p s = s.
Proof.
  induction s; simpl; [reflexivity|].
  intros H. apply andb_prop in H as [H1 H2]. rewrite H1, IHs by assumption.
  reflexivity.
Qed.

Lemma allDigits_countDots s : allChars isDigit s = true -> countDots s = O.
Proof.
  induction s; simpl; [reflexivity|].
  intros H. apply andb_prop in H as [H1 H2].
  rewrite (isDigit_not_dot _ H1), IHs by assumption. reflexivity.
Qed.

Lemma allDigits_inClass s :
  allChars isDigit s = true -> allChars inClass09Dot s = true.
Proof.
  induction s; simpl; [reflexivity|].
  intros H. apply andb_prop in H as [H1 H2]. unfold inClass09Dot at 1.
  rewrite H1, IHs by assumption. reflexivity.
Qed.

(** Filtering the digits out of text already restricted to [0-9.]. *)
Lemma digitsOf_replaceOutside s :
  digitsOf (replaceOutside inClass09Dot s) = digitsOf s.
Proof.
  unfold digitsOf. induction s; simpl; [reflexivity|].
  unfold inClass09Dot at 1.
  destruct (isDigit a) eqn:E; simpl; [rewrite E, IHs; reflexivity|].
  destruct (isDot a); simpl; [rewrite E|]; exact IHs.
Qed.

(** *** [split] and [join] *)

Lemma split_not_nil sep s : split sep s <> [].
Proof.
  destruct s; simpl; [discriminate|].
  destruct (Ascii.eqb a sep); [discriminate|].
  destruct (split sep s); discriminate.
Qed.

Lemma split_length s : List.length (split "." s) = S (countDots s).
Proof.
  induction s; simpl; [reflexivity|].
  unfold isDot. destruct (Ascii.eqb a "."); simpl; [congruence|].
  destruct (split "." s) eqn:E; simpl in *; [discriminate|congruence].
Qed.

(** The parts, glued back with the separator, are the text. *)
Lemma split_join s : join "." (split "." s) = s.
Proof.
  unfold join. induction s; simpl; [reflexivity|].
  destruct (Ascii.eqb a ".") eqn:E.
  - apply Ascii.eqb_eq in E. subst a.
    pose proof (split_not_nil "." s) as Hn.
    destruct (split "." s) eqn:Es; [contradiction|].
    simpl in *. rewrite IHs. reflexivity.
  - destruct (split "." s) as [|p ps] eqn:Es;
      [exfalso; exact (split_not_nil _ _ Es)|].
    simpl in *. destruct ps; simpl in *; rewrite <- IHs; reflexivity.
Qed.

(** The first part is the text before the first separator. *)
Lemma split_at0 s : at0 (split "." s) = beforeFirstDot s.
Proof.
  induction s; simpl; [reflexivity|].
  unfold isDot. destruct (Ascii.eqb a "."); simpl; [reflexivity|].
  destruct (split "." s) eqn:E; simpl in *; [|congruence].
  exfalso. exact (split_not_nil _ _ E).
Qed.

(** Gluing the parts with nothing between them removes the separators. *)
Lemma split_join_nil s :
  join "" (split "." s) = replaceOutside (fun c => negb (isDot c)) s.
Proof.
  unfold join. induction s; simpl; [reflexivity|].
  unfold isDot in *. destruct (Ascii.eqb a "."); simpl.
  - pose proof (split_not_nil "." s) as Hn.
    destruct (split "." s) eqn:Es; [contradiction|]. simpl in *. exact IHs.
  - destruct (split "." s) as [|p ps] eqn:Es;
      [exfalso; exact (split_not_nil _ _ Es)|].
    simpl in *. destruct ps; simpl in *; rewrite <- IHs; reflexivity.
Qed.

Lemma noDots_digits s :
  allChars inClass09Dot s = true ->
  replaceOutside (fun c => negb (isDot c)) s = digitsOf s.
Proof.
  unfold digitsOf. induction s; simpl; [reflexivity|].
  intros H. apply andb_prop in H as [H1 H2]. unfold inClass09Dot in H1.
  destruct (isDigit a) eqn:Ed.
  - rewrite (isDigit_not_dot _ Ed). simpl. rewrite IHs by assumption. reflexivity.
  - simpl in H1. rewrite H1. simpl. auto.
Qed.

(** With a dot in the text, the parts after the first one are the parts
    of the text after the first dot. *)
Lemma split_slice1 s :
  (0 < countDots s)%nat -> slice1 (split "." s) = split "." (afterFirstDot s).
Proof.
  induction s; simpl; [lia|].
  unfold isDot. destruct (Ascii.eqb a "."); simpl; [reflexivity|].
  intros H. specialize (IHs H).
  destruct (split "." s) eqn:E; simpl in *; [|assumption].
  exfalso. exact (split_not_nil _ _ E).
Qed.

Lemma beforeFirstDot_noDots s : countDots (beforeFirstDot s) = O.
Proof.
  induction s; simpl; [reflexivity|].
  destruct (isDot a) eqn:E; simpl; [reflexivity|]. rewrite E. assumption.
Qed.

Lemma beforeFirstDot_all p s :
  allChars p s = true -> allChars p (beforeFirstDot s) = true.
Proof.
  induction s; simpl; [reflexivity|].
  intros H. apply andb_prop in H as [H1 H2].
  destruct (isDot a); simpl; [reflexivity|]. rewrite H1. auto.
Qed.

Lemma afterFirstDot_all p s :
  allChars p s = true -> allChars p (afterFirstDot s) = true.
Proof.
  induction s; simpl; [reflexivity|].
  intros H. apply andb_prop in H as [H1 H2].
  destruct (isDot a); auto.
Qed.

(** A text with a dot is what is before it, the dot, and what is after it. *)
Lemma first_dot_decompose s :
  (0 < countDots s)%nat -> s = beforeFirstDot s ++ "." ++ afterFirstDot s.
Proof.
  induction s; simpl; [lia|].
  destruct (isDot a) eqn:E; simpl.
  - intros _. apply isDot_eq in E. subst a. reflexivity.
  - intros H. f_equal. apply IHs. assumption.
Qed.

Lemma digitsOf_first_dot s :
  (0 < countDots s)%nat ->
  digitsOf s = digitsOf (beforeFirstDot s) ++ digitsOf (afterFirstDot s).
Proof.
  unfold digitsOf. induction s as [|c s IH]; simpl; [lia|].
  destruct (isDot c) eqn:E; simpl.
  - intros _. apply isDot_eq in E. subst c. reflexivity.
  - intros H. destruct (isDigit c); simpl; rewrite IH by assumption; reflexivity.
Qed.

Lemma beforeFirstDot_id s : countDots s = O -> beforeFirstDot s = s.
Proof.
  induction s; simpl; [reflexivity|].
  destruct (isDot a); simpl; [discriminate|]. intros H. rewrite IHs; auto.
Qed.

Lemma beforeFirstDot_app_dot u v :
  countDots u = O -> beforeFirstDot (u ++ "." ++ v) = u.
Proof.
  induction u as [|c u IH]; simpl; [reflexivity|].
  destruct (isDot c); simpl; [discriminate|].
  intros H. f_equal. apply IH. assumption.
Qed.

Lemma afterFirstDot_app_dot u v :
  countDots u = O -> afterFirstDot (u ++ "." ++ v) = v.
Proof.
  induction u as [|c u IH]; simpl; [reflexivity|].
  destruct (isDot c); simpl; [discriminate|].
  intros H. apply IH. assumption.
Qed.

Lemma digitsOf_all s : allChars isDigit (digitsOf s) = true.
Proof. apply replaceOutside_all. Qed.

End StringFacts.

(** ** Sanitization ([handleChange]) *)

Module Sanitize.
Import JsString Props StringFacts InputField.

(** What [cleanedValue] is, by the number of dots left after stripping. *)
Lemma cleanedValue_few_dots input :
  (countDots (replaceOutside inClass09Dot input) <= 1)%nat ->
  cleanedValue input = replaceOutside inClass09Dot input.
Proof.
  intros H. unfold cleanedValue. rewrite split_length.
  destruct (Nat.ltb_spec 2 (S (countDots (replaceOutside inClass09Dot input))));
    [lia|reflexivity].
Qed.

Lemma cleanedValue_many_dots input :
  let c := replaceOutside inClass09Dot input in
  (2 <= countDots c)%nat ->
  cleanedValue input = beforeFirstDot c ++ "." ++ digitsOf (afterFirstDot c).
Proof.
  intros c H. unfold cleanedValue. fold c. rewrite split_length.
  destruct (Nat.ltb_spec 2 (S (countDots c))); [|lia].
  rewrite split_at0, split_slice1 by lia.
  rewrite split_join_nil, noDots_digits; [reflexivity|].
  apply afterFirstDot_all, replaceOutside_all.
Qed.

Lemma cleanedValue_inClass input :
  allChars inClass09Dot (cleanedValue input) = true.
Proof.
  destruct (Nat.le_gt_cases (countDots (replaceOutside inClass09Dot input)) 1) as [H|H].
  - rewrite cleanedValue_few_dots by assumption. apply replaceOutside_all.
  - rewrite cleanedValue_many_dots by lia.
    rewrite !allChars_app. simpl.
    rewrite beforeFirstDot_all by apply replaceOutside_all.
    rewrite allDigits_inClass by apply digitsOf_all. reflexivity.
Qed.

Lemma cleanedValue_dots input : (countDots (cleanedValue input) <= 1)%nat.
Proof.
  destruct (Nat.le_gt_cases (countDots (replaceOutside inClass09Dot input)) 1) as [H|H].
  - rewrite cleanedValue_few_dots by assumption. assumption.
  - rewrite cleanedValue_many_dots by lia.
    rewrite !countDots_app, beforeFirstDot_noDots. simpl.
    rewrite allDigits_countDots by apply digitsOf_all. lia.
Qed.

Lemma cleanedValue_fixed s : isRawAmount s = true -> cleanedValue s = s.
Proof.
  unfold isRawAmount. intros H. apply andb_prop in H as [Ha Hd].
  apply Nat.leb_le in Hd.
  rewrite cleanedValue_few_dots; rewrite replaceOutside_id by assumption;
    [reflexivity|assumption].
Qed.

Lemma cleanedValue_isRawAmount input : isRawAmount (cleanedValue input) = true.
Proof.
  unfold isRawAmount. rewrite cleanedValue_inClass. simpl.
  apply Nat.leb_le, cleanedValue_dots.
Qed.

(** C7. For every input text, the text [handleChange] stores and emits
    holds only digits and dots, and at most one dot. *)
Theorem sanitized_digits_one_dot (input : string) :
  allChars inClass09Dot (cleanedValue input) = true /\
  (countDots (cleanedValue input) <= 1)%nat.
Proof. split; [apply cleanedValue_inClass|apply cleanedValue_dots]. Qed.

(** C8. When two or more dots are left after stripping the characters
    outside [0-9.], exactly one dot remains in the sanitized text, it is
    the first one (the text before it is the text before the first dot),
    and the digits of the input are all kept, in their order. *)
Theorem sanitized_collapses_dots (input : string) :
  (2 <= countDots (replaceOutside inClass09Dot input))%nat ->
  countDots (cleanedValue input) = 1%nat /\
  beforeFirstDot (cleanedValue input) =
    beforeFirstDot (replaceOutside inClass09Dot input) /\
  digitsOf (cleanedValue input) = digitsOf input.
Proof.
  intros H. rewrite cleanedValue_many_dots by assumption.
  set (c := replaceOutside inClass09Dot input) in *.
  split; [|split].
  - rewrite !countDots_app, beforeFirstDot_noDots. simpl.
    rewrite allDigits_countDots by apply digitsOf_all. reflexivity.
  - apply beforeFirstDot_app_dot, beforeFirstDot_noDots.
  - rewrite <- (digitsOf_replaceOutside input). fold c.
    rewrite (digitsOf_first_dot c) by lia.
    unfold digitsOf. rewrite !replaceOutside_app. simpl.
    rewrite (replaceOutside_id isDigit (replaceOutside isDigit _))
      by apply replaceOutside_all.
    reflexivity.
Qed.

Lemma sanitized_collapses_dots_witness :
  (2 <= countDots (replaceOutside inClass09Dot "1x2.3.4,5.6"))%nat /\
  cleanedValue "1x2.3.4,5.6" = "12.3456" /\
  countDots (cleanedValue "1x2.3.4,5.6") = 1%nat.
Proof.
  split; [vm_compute; lia|]. split; [reflexivity|].
  apply (sanitized_collapses_dots "1x2.3.4,5.6"). vm_compute. lia.
Defined.

(** C10. Sanitization is idempotent, and every text of digits with at
    most one dot (every RawAmount) is a fixed point of it. *)
Theorem sanitize_idempotent :
  (forall input, cleanedValue (cleanedValue input) = cleanedValue input) /\
  (forall s, isRawAmount s = true -> cleanedValue s = s).
Proof.
  split.
  - intros input. apply cleanedValue_fixed, cleanedValue_isRawAmount.
  - apply cleanedValue_fixed.
Qed.

Lemma sanitize_idempotent_witness :
  isRawAmount "1234.50" = true /\ cleanedValue "1234.50" = "1234.50".
Proof.
  split; [reflexivity|].
  apply (proj2 sanitize_idempotent "1234.50"). reflexivity.
Defined.

End Sanitize.

(** ** The derived results *)

Module Results.
Import JsString JsNumber App.

Lemma truthy_false s : truthy s = false <-> s = "".
Proof.
  unfold truthy. destruct (String.eqb_spec s ""); simpl; split;
    congruence.
Qed.

Lemma truthy_true s : truthy s = true <-> s <> "".
Proof.
  unfold truthy. destruct (String.eqb_spec s ""); simpl; split;
    congruence.
Qed.

(** The guard shared by the four results. *)
Lemma guard_false a b :
  a = "" \/ b = "" \/ isNaN (parseFloat a) = true \/ isNaN (parseFloat b) = true ->
  truthy b && truthy a && negb (isNaN (parseFloat a)) && negb (isNaN (parseFloat b))
  = false.
Proof.
  intros [H|[H|[H|H]]].
  - apply truthy_false in H. rewrite H, andb_false_r. reflexivity.
  - apply truthy_false in H. rewrite H. reflexivity.
  - rewrite H. simpl. rewrite andb_false_r. reflexivity.
  - rewrite H. simpl. apply andb_false_r.
Qed.

Lemma guard_true a b :
  a <> "" -> b <> "" ->
  isNaN (parseFloat a) = false -> isNaN (parseFloat b) = false ->
  truthy b && truthy a && negb (isNaN (parseFloat a)) && negb (isNaN (parseFloat b))
  = true.
Proof.
  intros Ha Hb Na Nb. apply truthy_true in Ha, Hb.
  rewrite Ha, Hb, Na, Nb. reflexivity.
Qed.

(** C1. Each of the four results is exactly [0] when either text is
    empty or does not parse, and is the quotient (for the second one the
    product) of the two parsed Numbers, as the floating-point operation
    gives it, when both texts are non-empty and parse. *)
Theorem derived_results (a b : string) :
  (a = "" \/ b = "" \/ isNaN (parseFloat a) = true \/ isNaN (parseFloat b) = true ->
   pkrToPhpResult a b = zero /\ phpToPkrResult a b = zero /\
   directPkrPhpRate a b = zero /\ crossUsdRate a b = zero) /\
  (a <> "" -> b <> "" ->
   isNaN (parseFloat a) = false -> isNaN (parseFloat b) = false ->
   pkrToPhpResult a b = div (parseFloat a) (parseFloat b) /\
   phpToPkrResult a b = mul (parseFloat a) (parseFloat b) /\
   directPkrPhpRate a b = div (parseFloat a) (parseFloat b) /\
   crossUsdRate a b = div (parseFloat a) (parseFloat b)).
Proof.
  split.
  - intros H. apply guard_false in H.
    unfold pkrToPhpResult, phpToPkrResult, directPkrPhpRate, crossUsdRate.
    rewrite H. repeat split.
  - intros Ha Hb Na Nb. pose proof (guard_true a b Ha Hb Na Nb) as H.
    unfold pkrToPhpResult, phpToPkrResult, directPkrPhpRate, crossUsdRate.
    rewrite H. repeat split.
Qed.

Lemma derived_results_witness :
  pkrToPhpResult "" "4.80" = zero /\
  pkrToPhpResult "50000" "4.80" = div (parseFloat "50000") (parseFloat "4.80") /\
  phpToPkrResult "100" "4.80" = S754_finite false 8444249301319680 (-44).
Proof.
  assert (forall a b, a <> "" -> b <> "" ->
            isNaN (parseFloat a) = false -> isNaN (parseFloat b) = false ->
            pkrToPhpResult a b = div (parseFloat a) (parseFloat b) /\
            phpToPkrResult a b = mul (parseFloat a) (parseFloat b))
    as Hparsed
    by (intros a b Ha Hb Na Nb;
        destruct (proj2 (derived_results a b) Ha Hb Na Nb) as (H1 & H2 & _);
        split; assumption).
  split; [|split].
  - exact (proj1 (proj1 (derived_results "" "4.80") (or_introl eq_refl))).
  - refine (proj1 (Hparsed "50000" "4.80" _ _ _ _));
      [discriminate|discriminate|vm_compute; reflexivity|vm_compute; reflexivity].
  - transitivity (mul (parseFloat "100") (parseFloat "4.80"));
      [|vm_compute; reflexivity].
    refine (proj2 (Hparsed "100" "4.80" _ _ _ _));
      [discriminate|discriminate|vm_compute; reflexivity|vm_compute; reflexivity].
Defined.

End Results.

(** ** Result formatting *)

Module Formatting.
Import JsString JsNumber Helpers.

Lemma repeatN_length c n : String.length (repeatN (String c "") n) = n.
Proof. induction n; simpl; congruence. Qed.

Lemma repeatN_zeros n : allZeros (repeatN "0" n) = true.
Proof. induction n; simpl; auto. Qed.

(** [n === 0] holds of the two zeros only. *)
Lemma strictEq_zero n : strictEq n zero = true <-> exists s, n = S754_zero s.
Proof.
  split.
  - destruct n as [s|s| |s m e]; intros H;
      [exists s; reflexivity|destruct s; discriminate H|discriminate H
      |destruct s; discriminate H].
  - intros [s ->]. reflexivity.
Qed.

Lemma formatNumber_zero_branch n decimals :
  (0 <= decimals)%Z -> isNaN n = true \/ strictEq n zero = true ->
  formatNumber n decimals = Ok ("0." ++ repeatN "0" (Z.to_nat decimals)).
Proof.
  intros Hd Hn. unfold formatNumber, repeat.
  replace (isNaN n || strictEq n zero) with true
    by (destruct Hn as [-> | ->]; [reflexivity|rewrite orb_true_r; reflexivity]).
  destruct (Z.ltb_spec decimals 0); [lia|reflexivity].
Qed.

(** C2. For a non-negative integer [decimals] and a Number that is NaN
    or equal to [0], [formatNumber] returns "0", then ".", then exactly
    [decimals] characters, all "0"; with two decimals it returns "0.00". *)
Theorem formatNumber_NaN_or_zero (n : number) (decimals : Z) :
  (0 <= decimals)%Z -> isNaN n = true \/ strictEq n zero = true ->
  exists zeros,
    formatNumber n decimals = Ok ("0" ++ "." ++ zeros) /\
    String.length zeros = Z.to_nat decimals /\ allZeros zeros = true /\
    formatNumber n 2 = Ok "0.00".
Proof.
  intros Hd Hn. exists (repeatN "0" (Z.to_nat decimals)).
  split; [exact (formatNumber_zero_branch n decimals Hd Hn)|].
  split; [apply repeatN_length|]. split; [apply repeatN_zeros|].
  apply (formatNumber_zero_branch n 2); [lia|assumption].
Qed.

Lemma formatNumber_NaN_or_zero_witness :
  exists zeros,
    formatNumber NaN 2 = Ok ("0" ++ "." ++ zeros) /\
    String.length zeros = 2%nat /\ allZeros zeros = true /\
    formatNumber NaN 2 = Ok "0.00".
Proof.
  apply (formatNumber_NaN_or_zero NaN 2); [lia|left; reflexivity].
Defined.

(** C3. With no decimals the zero of an empty input is not rendered as
    "0": the text [formatNumber] returns keeps the "." and is "0.",
    whereas a non-zero Number below one half is rendered as "0". *)
Theorem formatNumber_zero_no_decimals :
  App.pkrToPhpResult "" "4.80" = zero /\
  formatNumber (App.pkrToPhpResult "" "4.80") 0 = Ok "0." /\
  formatNumber zero 0 <> Ok "0" /\
  formatNumber (parseFloat "0.4") 0 = Ok "0".
Proof. repeat split; try reflexivity. discriminate. Qed.

End Formatting.

(** ** Display synchronization and blur *)

Module Display.
Import JsString JsNumber InputField.

Lemma endsWith_nonempty s t : endsWith s t = true -> t <> "" -> s <> "".
Proof.
  intros H Ht ->. simpl in H. rewrite orb_false_r in H.
  destruct t; [congruence|discriminate].
Qed.

(** C5. The text the effect shows for [value]: empty for the empty
    text; the text itself when it does not parse; the grouped Number
    followed by "." when the text ends with "." and parses; the grouped
    Number in the remaining case. *)
Theorem displayFor_cases (v : string) :
  (v = "" -> displayFor v = "") /\
  (isNaN (parseFloat v) = true -> displayFor v = v) /\
  (endsWith v "." = true -> isNaN (parseFloat v) = false ->
   displayFor v = toLocaleString (parseFloat v) ++ ".") /\
  (v <> "" -> endsWith v "." = false -> isNaN (parseFloat v) = false ->
   displayFor v = toLocaleString (parseFloat v)).
Proof.
  unfold displayFor. repeat split.
  - intros ->. reflexivity.
  - intros H. rewrite H. simpl. rewrite andb_false_r.
    destruct (String.eqb_spec v ""); congruence.
  - intros He Hn. rewrite He, Hn. simpl.
    assert (v <> "") as Hv by (apply (endsWith_nonempty _ _ He); discriminate).
    destruct (String.eqb_spec v ""); congruence.
  - intros Hv He Hn. rewrite He, Hn. simpl.
    destruct (String.eqb_spec v ""); congruence.
Qed.

Lemma displayFor_cases_witness :
  displayFor "" = "" /\ displayFor "." = "." /\
  displayFor "1234." = "1,234." /\ displayFor "1234567.25" = "1,234,567.25".
Proof.
  split; [apply (proj1 (displayFor_cases "")); reflexivity|].
  split; [apply (proj1 (proj2 (displayFor_cases "."))); reflexivity|].
  split.
  - change "1,234." with (toLocaleString (parseFloat "1234.") ++ ".").
    apply (proj1 (proj2 (proj2 (displayFor_cases "1234.")))); reflexivity.
  - change "1,234,567.25" with (toLocaleString (parseFloat "1234567.25")).
    apply (proj2 (proj2 (proj2 (displayFor_cases "1234567.25"))));
      [discriminate|reflexivity|reflexivity].
Defined.

(** C6. On blur: a non-empty value that parses has its display text set
    to the grouped Number, [onChange] is not called and the value stays;
    a non-empty value that does not parse is cleared, with its display
    text; an empty value leaves the display text empty.  The value
    "1234." keeps its text and is displayed as "1,234". *)
Theorem blur_cases (f : field) :
  (value f <> "" -> isNaN (parseFloat (value f)) = false ->
   handleBlur (value f) = [SetDisplayValue (toLocaleString (parseFloat (value f)))] /\
   blur f = {| value := value f;
               displayValue := toLocaleString (parseFloat (value f)) |}) /\
  (value f <> "" -> isNaN (parseFloat (value f)) = true ->
   handleBlur (value f) = [SetDisplayValue ""; OnChange ""] /\
   blur f = {| value := ""; displayValue := "" |}) /\
  (value f = "" ->
   handleBlur (value f) = [SetDisplayValue ""] /\
   blur f = {| value := ""; displayValue := "" |}) /\
  (value f = "1234." ->
   blur f = {| value := "1234."; displayValue := "1,234" |}).
Proof.
  destruct f as [v d]. unfold blur, dispatch, commit, handleBlur. simpl.
  split; [|split; [|split]].
  - intros Hv Hn. destruct (String.eqb_spec v ""); [congruence|].
    rewrite Hn. simpl. rewrite String.eqb_refl. split; reflexivity.
  - intros Hv Hn. destruct (String.eqb_spec v ""); [congruence|].
    rewrite Hn. simpl. destruct (String.eqb_spec v ""); [congruence|].
    split; reflexivity.
  - intros ->. split; reflexivity.
  - intros ->. reflexivity.
Qed.

Lemma blur_cases_witness :
  blur {| value := "1234."; displayValue := "1,234." |}
  = {| value := "1234."; displayValue := "1,234" |} /\
  blur {| value := "."; displayValue := "." |}
  = {| value := ""; displayValue := "" |} /\
  handleBlur "1234.5" = [SetDisplayValue "1,234.5"].
Proof.
  split; [|split].
  - apply (proj2 (proj2 (proj2 (blur_cases {| value := "1234."; displayValue := "1,234." |})))).
    reflexivity.
  - apply (proj1 (proj2 (blur_cases {| value := "."; displayValue := "." |})));
      [discriminate|reflexivity].
  - apply (proj1 (blur_cases {| value := "1234.5"; displayValue := "1234.5" |}));
      [discriminate|reflexivity].
Defined.

End Display.

(** ** Rounding to the nearest Number *)

Module Rounding.
Import JsNumber.
Local Open Scope Z_scope.

Lemma roundNearestEven_spec a b :
  0 < b -> - b <= 2 * (a - roundNearestEven a b * b) <= b.
Proof.
  intros Hb. unfold roundNearestEven.
  pose proof (Z.div_mod a b ltac:(lia)) as Hd.
  pose proof (Z.mod_pos_bound a b Hb) as Hm.
  destruct (Z.compare_spec (2 * (a mod b)) b); [destruct (Z.even (a / b))| |]; nia.
Qed.

Lemma roundNearestEven_unique a b m :
  0 < b -> - b < 2 * (a - m * b) < b -> roundNearestEven a b = m.
Proof.
  intros Hb Hm. pose proof (roundNearestEven_spec a b Hb) as Hs.
  set (r := roundNearestEven a b) in *. nia.
Qed.

Lemma roundNearestEven_scale c a b :
  0 < c -> 0 < b -> roundNearestEven (c * a) (c * b) = roundNearestEven a b.
Proof.
  intros Hc Hb. unfold roundNearestEven.
  rewrite Z.div_mul_cancel_l, Z.mul_mod_distr_l by lia.
  destruct (Z.compare_spec (2 * (a mod b)) b),
    (Z.compare_spec (2 * (c * (a mod b))) (c * b)); try reflexivity; nia.
Qed.

Lemma roundNearestEven_bracket a b lo hi :
  0 < b -> lo * b <= a <= hi * b -> lo <= roundNearestEven a b <= hi.
Proof.
  intros Hb H. pose proof (roundNearestEven_spec a b Hb) as Hs.
  set (r := roundNearestEven a b) in *. nia.
Qed.

Lemma roundRat_scale neg c p q :
  0 < c -> 0 < q -> roundRat neg (c * p) (c * q) = roundRat neg p q.
Proof.
  intros Hc Hq. unfold roundRat.
  replace (c * p =? 0) with (p =? 0)
    by (destruct (Z.eqb_spec p 0), (Z.eqb_spec (c * p) 0); try reflexivity; nia).
  destruct (p =? 0); [reflexivity|].
  rewrite <- !Z.mul_assoc, Z.div_mul_cancel_l by lia.
  rewrite roundNearestEven_scale; [reflexivity|assumption|].
  apply Z.mul_pos_pos; [assumption|]. apply Z.pow_pos_nonneg; lia.
Qed.

Lemma div_bracket P q lo hi :
  0 < q -> lo <= P / q < hi -> q * lo <= P < q * hi.
Proof.
  intros Hq H. pose proof (Z.div_mod P q ltac:(lia)).
  pose proof (Z.mod_pos_bound P q Hq). nia.
Qed.

Lemma roundRat_finite_inv neg p q s mp e :
  0 < p -> 0 < q -> roundRat neg p q = S754_finite s mp e ->
  s = neg /\ 0 <= e - expMin <= expMax - expMin /\
  - (q * 2 ^ (e - expMin))
    <= 2 * (p * 2 ^ (- expMin) - Zpos mp * (q * 2 ^ (e - expMin)))
    <= q * 2 ^ (e - expMin) /\
  Zpos mp < 2 ^ 53 /\ (0 < e - expMin -> 2 ^ 52 <= Zpos mp).
Proof.
  unfold roundRat. intros Hp Hq. destruct (Z.eqb_spec p 0) as [|_]; [lia|].
  set (P := p * 2 ^ (- expMin)). set (L := Z.log2 (P / q)).
  set (e0 := Z.max (L - 52) 0). set (B := q * 2 ^ e0).
  set (m0 := roundNearestEven P B).
  assert (0 < 2 ^ e0) as Hpow by (apply Z.pow_pos_nonneg; lia).
  assert (0 < B) as HB by (apply Z.mul_pos_pos; assumption).
  pose proof (roundNearestEven_spec P B HB) as Hs. fold m0 in Hs.
  assert (0 <= P) as HP by (unfold P; apply Z.mul_nonneg_nonneg; [lia|apply Z.pow_nonneg; lia]).
  assert (P < 2 ^ 53 * B /\ (0 < e0 -> 2 ^ 52 * B <= P)) as [Hhi Hlo].
  { destruct (Z.le_gt_cases (P / q) 0) as [Hz|Hz].
    - assert (P / q = 0) as H0 by (pose proof (Z.div_pos P q HP Hq); lia).
      assert (L = 0) as HL by (unfold L; rewrite H0; reflexivity).
      assert (e0 = 0) as He0 by lia.
      split; [|lia].
      pose proof (div_bracket P q 0 1 Hq ltac:(lia)). unfold B. rewrite He0.
      change (2 ^ 0) with 1. change (2 ^ 53) with 9007199254740992. lia.
    - pose proof (Z.log2_spec (P / q) Hz) as Hl. fold L in Hl.
      assert (0 <= L) as HL0 by apply Z.log2_nonneg.
      pose proof (div_bracket P q _ _ Hq Hl) as Hb.
      destruct (Z.le_gt_cases (L - 52) 0) as [Hc|Hc].
      + assert (e0 = 0) as He0 by lia. split; [|lia].
        unfold B. rewrite He0. change (2 ^ 0) with 1.
        assert (2 ^ Z.succ L <= 2 ^ 53) by (apply Z.pow_le_mono_r; lia). nia.
      + assert (e0 = L - 52) as He0 by lia.
        assert (2 ^ L = 2 ^ 52 * 2 ^ e0) as E1
          by (rewrite <- Z.pow_add_r by lia; f_equal; lia).
        assert (2 ^ Z.succ L = 2 ^ 53 * 2 ^ e0) as E2
          by (rewrite <- Z.pow_add_r by lia; f_equal; lia).
        rewrite E1, E2 in Hb. unfold B. split; [|intros _]; nia. }
  destruct (Z.eqb_spec m0 (2 ^ 53)) as [Hc|Hc].
  - change (2 ^ 52) with (Zpos 4503599627370496).
    cbv iota beta.
    destruct (Z.ltb_spec (expMax - expMin) (e0 + 1)) as [Hov|Hov]; [discriminate|].
    intros Hr. injection Hr as <- <- <-.
    replace (e0 + 1 + expMin - expMin) with (e0 + 1) by lia.
    assert (2 ^ (e0 + 1) = 2 * 2 ^ e0) as E1
      by (rewrite Z.pow_add_r by lia; change (2 ^ 1) with 2; lia).
    rewrite E1. rewrite Hc in Hs. fold P.
    change (2 ^ 53) with 9007199254740992 in *.
    change (2 ^ 52) with 4503599627370496 in *.
    repeat split; try lia; unfold B in *; nia.
  - destruct m0 as [|mp0|mp0] eqn:Em; try discriminate.
    destruct (Z.ltb_spec (expMax - expMin) e0) as [Hov|Hov]; [discriminate|].
    intros Hr. injection Hr as <- <- <-.
    replace (e0 + expMin - expMin) with e0 by lia. fold P. fold B.
    assert (Z.pos mp0 < 2 ^ 53) as Hlt.
    { pose proof (roundNearestEven_bracket P B 0 (2 ^ 53) HB ltac:(lia)) as Hb.
      fold m0 in Hb. lia. }
    assert (0 < e0 -> 2 ^ 52 <= Z.pos mp0) as Hn.
    { intros He. apply Hlo in He.
      pose proof (roundNearestEven_bracket P B (2 ^ 52) (2 ^ 53) HB ltac:(lia)) as Hb.
      fold m0 in Hb. lia. }
    repeat split; try lia; apply Hn; assumption.
Qed.

Lemma roundRat_intro neg p q mp E :
  0 < p -> 0 < q -> 0 <= E <= expMax - expMin ->
  2 ^ 52 * (q * 2 ^ E) <= p * 2 ^ (- expMin) < 2 ^ 53 * (q * 2 ^ E) ->
  roundNearestEven (p * 2 ^ (- expMin)) (q * 2 ^ E) = Zpos mp ->
  Zpos mp < 2 ^ 53 ->
  roundRat neg p q = S754_finite neg mp (E + expMin).
Proof.
  intros Hp Hq HE Hb Hr Hm. unfold roundRat.
  destruct (Z.eqb_spec p 0) as [|_]; [lia|].
  set (P := p * 2 ^ (- expMin)) in *.
  assert (0 < 2 ^ E) as Hpow by (apply Z.pow_pos_nonneg; lia).
  assert (Z.log2 (P / q) = 52 + E) as HL.
  { apply Z.log2_unique; [lia|].
    replace (Z.succ (52 + E)) with (53 + E) by lia.
    rewrite !Z.pow_add_r by lia. split.
    - apply Z.div_le_lower_bound; [assumption|]. nia.
    - apply Z.div_lt_upper_bound; [assumption|]. nia. }
  rewrite HL. replace (Z.max (52 + E - 52) 0) with E by lia.
  rewrite Hr.
  destruct (Z.eqb_spec (Zpos mp) (2 ^ 53)) as [Hc|Hc].
  - lia.
  - destruct (Z.ltb_spec (expMax - expMin) E); [lia|reflexivity].
Qed.

(** *** The rounded value is a binary64 value *)

Lemma digits2_pos_log2 m : Zpos (digits2_pos m) = Z.log2 (Zpos m) + 1.
Proof.
  assert (forall p, digits2_pos p = Pos.size p) as Hs
    by (induction p; simpl; congruence).
  destruct m; simpl; rewrite ?Hs; lia.
Qed.

(** A mantissa below [2 ^ 53], of 53 bits unless the exponent is the
    least one, with an exponent in range, is a binary64 value. *)
Lemma bounded_intro m e :
  expMin <= e <= expMax -> Zpos m < 2 ^ 53 ->
  (expMin < e -> 2 ^ 52 <= Zpos m) ->
  bounded prec emax m e = true.
Proof.
  unfold expMin, expMax. intros He Hm Hn.
  unfold bounded, canonical_mantissa, fexp, emin, prec, emax.
  rewrite digits2_pos_log2.
  assert (Z.log2 (Zpos m) < 53) as Hl by (apply Z.log2_lt_pow2; lia).
  apply andb_true_intro. split; [|apply Z.leb_le; lia].
  apply Z.eqb_eq.
  destruct (Z.eq_dec e (-1074)) as [->|Hne]; [lia|].
  assert (52 <= Z.log2 (Zpos m)) by (apply Z.log2_le_pow2; lia). lia.
Qed.

Lemma roundRat_valid neg p q :
  0 <= p -> 0 < q -> valid_binary prec emax (roundRat neg p q) = true.
Proof.
  intros Hp Hq. destruct (roundRat neg p q) as [s|s| |s m e] eqn:E; try reflexivity.
  assert (0 < p) as Hp' by (destruct (Z.eq_dec p 0) as [->|]; [discriminate|lia]).
  destruct (roundRat_finite_inv neg p q s m e Hp' Hq E) as (_ & HE & _ & Hlt & Hn).
  apply bounded_intro; [unfold expMin, expMax in *; lia|assumption|].
  intros H. apply Hn. lia.
Qed.

(** [roundRat] gives the quotient the floating-point division gives. *)
Example roundRat_is_division :
  roundRat false 1 10 = div (roundRat false 1 1) (roundRat false 10 1) /\
  roundRat false 1 3 = div (roundRat false 1 1) (roundRat false 3 1) /\
  roundRat false 123456 100000
  = div (roundRat false 123456 1) (roundRat false 100000 1) /\
  roundRat false 50000 1 = mul (roundRat false 500 1) (roundRat false 100 1).
Proof. split; [|split; [|split]]; vm_compute; reflexivity. Qed.

End Rounding.

(** ** Digits, grouping and [parseFloat] on texts of digits *)

Module Digits.
Import JsString JsNumber Props StringFacts Rounding InputField.
Local Open Scope Z_scope.
Local Open Scope string_scope.

Lemma inClass_cases c :
  inClass09Dot c = true ->
  In c ["0"; "1"; "2"; "3"; "4"; "5"; "6"; "7"; "8"; "9"; "."]%char.
Proof.
  destruct c as [b0 b1 b2 b3 b4 b5 b6 b7].
  destruct b0, b1, b2, b3, b4, b5, b6, b7; intros H;
    try discriminate H; simpl; tauto.
Qed.

Lemma isDigit_inClass c : isDigit c = true -> inClass09Dot c = true.
Proof. unfold inClass09Dot. intros ->. reflexivity. Qed.

Lemma isDigit_range c : isDigit c = true -> 0 <= digitValue c <= 9.
Proof.
  unfold isDigit, digitValue. intros H. apply andb_prop in H as [H1 H2].
  apply Nat.leb_le in H1, H2. lia.
Qed.

Lemma digitChar_isDigit d : 0 <= d <= 9 -> isDigit (digitChar d) = true.
Proof.
  intros H.
  assert (d = 0 \/ d = 1 \/ d = 2 \/ d = 3 \/ d = 4 \/ d = 5 \/ d = 6 \/ d = 7
          \/ d = 8 \/ d = 9) as Hd by lia.
  repeat (destruct Hd as [->|Hd]; [reflexivity|]). subst. reflexivity.
Qed.

Lemma digitChar_value d : 0 <= d <= 9 -> digitValue (digitChar d) = d.
Proof.
  intros H.
  assert (d = 0 \/ d = 1 \/ d = 2 \/ d = 3 \/ d = 4 \/ d = 5 \/ d = 6 \/ d = 7
          \/ d = 8 \/ d = 9) as Hd by lia.
  repeat (destruct Hd as [->|Hd]; [reflexivity|]). subst. reflexivity.
Qed.

Lemma isDigit_not_comma c : isDigit c = true -> Ascii.eqb c "," = false.
Proof.
  intros H. destruct (Ascii.eqb_spec c ","); [subst; discriminate H|reflexivity].
Qed.

Lemma length_app (a b : string) :
  String.length (a ++ b) = (String.length a + String.length b)%nat.
Proof. induction a; simpl; congruence. Qed.

(** *** The value of a text of digits *)

Lemma decimalValueFrom_app a b acc :
  decimalValueFrom acc (a ++ b) = decimalValueFrom (decimalValueFrom acc a) b.
Proof. revert acc. induction a; simpl; intros; [reflexivity|apply IHa]. Qed.

Lemma decimalValueFrom_acc s acc :
  decimalValueFrom acc s
  = acc * 10 ^ Z.of_nat (String.length s) + decimalValue s.
Proof.
  unfold decimalValue. revert acc. induction s as [|c s IH]; intros acc.
  - simpl. lia.
  - cbn [decimalValueFrom String.length]. rewrite IH, (IH (10 * 0 + digitValue c)).
    rewrite Nat2Z.inj_succ, Z.pow_succ_r by lia. ring.
Qed.

Lemma decimalValue_app a b :
  decimalValue (a ++ b)
  = decimalValue a * 10 ^ Z.of_nat (String.length b) + decimalValue b.
Proof.
  unfold decimalValue at 1. rewrite decimalValueFrom_app, decimalValueFrom_acc.
  reflexivity.
Qed.

Lemma decimalValue_nonneg s : allChars isDigit s = true -> 0 <= decimalValue s.
Proof.
  induction s as [|c s IH]; intros H; [unfold decimalValue; simpl; lia|].
  simpl in H. apply andb_prop in H as [Hc Hs].
  change (String c s) with (String c "" ++ s). rewrite decimalValue_app.
  pose proof (isDigit_range c Hc). specialize (IH Hs).
  unfold decimalValue at 1. simpl.
  assert (0 <= 10 ^ Z.of_nat (String.length s)) by (apply Z.pow_nonneg; lia).
  nia.
Qed.

(** *** Printing digits *)

Lemma fixedDigits_length k n : String.length (fixedDigits k n) = k.
Proof.
  revert n. induction k; intros n; simpl; [reflexivity|].
  rewrite length_app, IHk. simpl. lia.
Qed.

Lemma fixedDigits_digits k n : allChars isDigit (fixedDigits k n) = true.
Proof.
  revert n. induction k; intros n; simpl; [reflexivity|].
  rewrite allChars_app, IHk. simpl.
  rewrite digitChar_isDigit; [reflexivity|].
  pose proof (Z.mod_pos_bound n 10). lia.
Qed.

Lemma fixedDigits_value k n :
  0 <= n -> decimalValue (fixedDigits k n) = n mod 10 ^ Z.of_nat k.
Proof.
  revert n. induction k; intros n Hn.
  - simpl. rewrite Z.mod_1_r. reflexivity.
  - cbn [fixedDigits]. rewrite decimalValue_app, IHk by (apply Z.div_pos; lia).
    unfold decimalValue at 1. cbn [decimalValueFrom String.length].
    rewrite digitChar_value by (pose proof (Z.mod_pos_bound n 10); lia).
    change (10 ^ Z.of_nat 1) with 10.
    rewrite Nat2Z.inj_succ, Z.pow_succ_r by lia.
    rewrite Z.rem_mul_r by (try apply Z.pow_pos_nonneg; lia).
    ring.
Qed.

Lemma stripLeadingZeros_digits s :
  allChars isDigit s = true -> allChars isDigit (stripLeadingZeros s) = true.
Proof.
  induction s as [|c s IH]; simpl; [reflexivity|].
  intros H. destruct (isZeroChar c); [|exact H].
  apply andb_prop in H as [_ H]. auto.
Qed.

Lemma stripLeadingZeros_value s :
  decimalValue (stripLeadingZeros s) = decimalValue s.
Proof.
  induction s as [|c s IH]; simpl; [reflexivity|].
  unfold isZeroChar. destruct (Ascii.eqb_spec c "0"); [|reflexivity].
  subst c. rewrite IH. unfold decimalValue. reflexivity.
Qed.

Lemma decimalDigits_digits n : allChars isDigit (decimalDigits n) = true.
Proof.
  unfold decimalDigits.
  pose proof (stripLeadingZeros_digits _ (fixedDigits_digits (S (Z.to_nat (Z.log2 n))) n)) as H.
  destruct (stripLeadingZeros _); [reflexivity|exact H].
Qed.


Lemma decimalDigits_value n : 0 <= n -> decimalValue (decimalDigits n) = n.
Proof.
  intros Hn. unfold decimalDigits.
  pose proof (stripLeadingZeros_value (fixedDigits (S (Z.to_nat (Z.log2 n))) n)) as H.
  rewrite fixedDigits_value in H by assumption.
  assert (n < 10 ^ Z.of_nat (S (Z.to_nat (Z.log2 n)))) as Hlt.
  { rewrite Nat2Z.inj_succ, Z2Nat.id by apply Z.log2_nonneg.
    destruct (Z.eq_dec n 0) as [->|Hz]; [reflexivity|].
    pose proof (Z.log2_spec n ltac:(lia)) as [_ Hl].
    assert (2 ^ Z.succ (Z.log2 n) <= 10 ^ Z.succ (Z.log2 n))
      by (apply Z.pow_le_mono_l; lia).
    lia. }
  rewrite Z.mod_small in H by lia.
  destruct (stripLeadingZeros _); [|exact H].
  rewrite <- H. reflexivity.
Qed.

(** *** Fraction digits and grouping *)

Lemma allZeros_value z : allZeros z = true -> decimalValue z = 0.
Proof.
  induction z as [|c z IH]; intros H; [reflexivity|].
  simpl in H. apply andb_prop in H as [Hc Hz]. unfold isZeroChar in Hc.
  apply Ascii.eqb_eq in Hc. subst c.
  change (String "0" z) with ("0" ++ z). rewrite decimalValue_app, IH by assumption.
  reflexivity.
Qed.

Lemma trimFraction_decompose f :
  exists z, allZeros z = true /\ f = trimFraction 0 f ++ z.
Proof.
  induction f as [|c f [z [Hz Hf]]]; [exists ""; split; reflexivity|].
  cbn [trimFraction]. destruct (allZeros (String c f)) eqn:E.
  - exists (String c f). split; [assumption|reflexivity].
  - exists z. split; [assumption|]. simpl. congruence.
Qed.

Lemma trimFraction_digits f :
  allChars isDigit f = true -> allChars isDigit (trimFraction 0 f) = true.
Proof.
  induction f as [|c f IH]; [reflexivity|].
  cbn [trimFraction]. intros H. destruct (allZeros (String c f)); [reflexivity|].
  simpl in *. apply andb_prop in H as [-> H]. auto.
Qed.

(** Dropping the trailing zeros of a fraction keeps its value: with [k]
    digits before and [k'] after, the digits read [10 ^ (k - k')] times less. *)
Lemma trimFraction_value f :
  (String.length (trimFraction 0 f) <= String.length f)%nat /\
  decimalValue f
  = decimalValue (trimFraction 0 f)
    * 10 ^ (Z.of_nat (String.length f) - Z.of_nat (String.length (trimFraction 0 f))).
Proof.
  destruct (trimFraction_decompose f) as [z [Hz Hf]].
  set (t := trimFraction 0 f) in *.
  rewrite Hf at 1 2 3. rewrite length_app, decimalValue_app, (allZeros_value z Hz).
  split; [lia|].
  replace (Z.of_nat (String.length t + String.length z) - Z.of_nat (String.length t))
    with (Z.of_nat (String.length z)) by lia.
  ring.
Qed.



Lemma removeGrouping_group s :
  allChars isDigit s = true -> removeGrouping (groupThousands s) = s.
Proof.
  induction s as [|c s IH]; [reflexivity|].
  intros H. simpl in H. apply andb_prop in H as [Hc Hs].
  cbn [groupThousands]. unfold removeGrouping in *. cbn [replaceOutside].
  rewrite (isDigit_not_comma c Hc). cbn [negb]. f_equal.
  destruct ((0 <? String.length s)%nat && (String.length s mod 3 =? 0)%nat);
    [cbn [replaceOutside]; change (Ascii.eqb "," ",") with true; cbn [negb]|];
    apply IH; assumption.
Qed.

(** *** Reading a text of digits and dots *)

Lemma spanDigits_digits d : allChars isDigit d = true -> spanDigits d = (d, "").
Proof.
  induction d as [|c d IH]; [reflexivity|].
  intros H. simpl in H. apply andb_prop in H as [Hc Hd].
  cbn [spanDigits]. rewrite Hc, IH by assumption. reflexivity.
Qed.

Lemma spanDigits_dot d r :
  allChars isDigit d = true -> spanDigits (d ++ String "." r) = (d, String "." r).
Proof.
  induction d as [|c d IH]; [reflexivity|].
  intros H. simpl in H. apply andb_prop in H as [Hc Hd].
  cbn [spanDigits append]. rewrite Hc, IH by assumption. reflexivity.
Qed.

Lemma trimStart_head c s :
  inClass09Dot c = true -> trimStart (String c s) = String c s.
Proof.
  intros H. apply inClass_cases in H. unfold trimStart. cbn [String.length trimStartFuel].
  repeat (destruct H as [<-|H]; [reflexivity|]). destruct H.
Qed.

Lemma signPrefix_head c s :
  inClass09Dot c = true -> signPrefix (String c s) = (false, String c s).
Proof.
  intros H. apply inClass_cases in H.
  repeat (destruct H as [<-|H]; [reflexivity|]). destruct H.
Qed.

Lemma prefix_Infinity_head c s :
  inClass09Dot c = true -> String.prefix "Infinity" (String c s) = false.
Proof.
  intros H. apply inClass_cases in H.
  repeat (destruct H as [<-|H]; [reflexivity|]). destruct H.
Qed.

(** What [parseFloat] reads in a text that starts with a digit or a dot. *)
Lemma parseFloat_head c s :
  inClass09Dot c = true ->
  parseFloat (String c s) =
  let '(i, r) := spanDigits (String c s) in
  match dotPrefix r with
  | Some r1 =>
      let '(f, r2) := spanDigits r1 in
      if String.eqb i "" && String.eqb f "" then NaN
      else ofDecimal false (decimalValue (i ++ f))
                     (exponentPart r2 - Z.of_nat (String.length f))
  | None =>
      if String.eqb i "" then NaN
      else ofDecimal false (decimalValue (i ++ "")) (exponentPart r - 0)
  end.
Proof.
  intros H. unfold parseFloat, unsignedLiteral.
  rewrite trimStart_head, signPrefix_head, prefix_Infinity_head by assumption.
  destruct (spanDigits (String c s)) as [i r].
  destruct (dotPrefix r) as [r1|].
  - destruct (spanDigits r1) as [f r2].
    destruct (String.eqb i "" && String.eqb f ""); reflexivity.
  - destruct (String.eqb i ""); reflexivity.
Qed.

(** A text of digits. *)
Lemma parseFloat_integer i :
  allChars isDigit i = true -> i <> "" ->
  parseFloat i = ofDecimal false (decimalValue i) 0.
Proof.
  intros Hi Hne. destruct i as [|c i]; [congruence|].
  rewrite parseFloat_head by (apply isDigit_inClass; simpl in Hi; apply andb_prop in Hi; tauto).
  rewrite spanDigits_digits by assumption. cbn [dotPrefix].
  rewrite append_nil_r. reflexivity.
Qed.

(** Digits, a dot, digits, and then nothing or a second dot. *)
Lemma parseFloat_decimal i f rest :
  allChars isDigit i = true -> allChars isDigit f = true ->
  rest = "" \/ rest = "." ->
  i <> "" \/ f <> "" ->
  parseFloat (i ++ "." ++ f ++ rest)
  = ofDecimal false (decimalValue (i ++ f)) (- Z.of_nat (String.length f)).
Proof.
  intros Hi Hf Hrest Hne.
  assert (exists c s, i ++ "." ++ f ++ rest = String c s /\ inClass09Dot c = true)
    as (c & s & Hcs & Hc).
  { destruct i as [|c i].
    - exists "."%char, (f ++ rest). split; reflexivity.
    - exists c, (i ++ "." ++ f ++ rest). split; [reflexivity|].
      apply isDigit_inClass. simpl in Hi. apply andb_prop in Hi. tauto. }
  rewrite Hcs, parseFloat_head by assumption. rewrite <- Hcs.
  change ("." ++ f ++ rest) with (String "." (f ++ rest)).
  rewrite spanDigits_dot by assumption. cbn [dotPrefix].
  change (isDot ".") with true. cbn iota.
  assert (spanDigits (f ++ rest) = (f, rest)) as ->.
  { destruct Hrest as [->| ->].
    - rewrite append_nil_r. apply spanDigits_digits. assumption.
    - apply spanDigits_dot. assumption. }
  assert (exponentPart rest = 0) as -> by (destruct Hrest as [->| ->]; reflexivity).
  assert (String.eqb i "" && String.eqb f "" = false) as ->.
  { destruct Hne as [H|H]; apply String.eqb_neq in H; rewrite H;
      [reflexivity|apply andb_false_r]. }
  reflexivity.
Qed.

(** *** The round trip through the display text *)

Lemma roundRat_sign neg p q :
  match roundRat neg p q with
  | S754_zero s | S754_infinity s | S754_finite s _ _ => s = neg
  | S754_nan => False
  end.
Proof.
  unfold roundRat. destruct (p =? 0)%Z; [reflexivity|].
  destruct (_ =? 2 ^ 53)%Z.
  - change (2 ^ 52)%Z with (Zpos 4503599627370496).
    cbv iota beta. destruct (_ <? _)%Z; reflexivity.
  - destruct (roundNearestEven _ _); try reflexivity.
    destruct (_ <? _)%Z; reflexivity.
Qed.




Lemma rawAmount_no_dot v :
  allChars inClass09Dot v = true -> countDots v = O -> allChars isDigit v = true.
Proof.
  induction v as [|c v IH]; [reflexivity|].
  simpl. intros H Hd. apply andb_prop in H as [Hc Hv]. unfold inClass09Dot in Hc.
  destruct (isDot c); [discriminate|]. rewrite orb_false_r in Hc.
  rewrite Hc, IH by assumption. reflexivity.
Qed.


Lemma displayFor_parsed v :
  isNaN (parseFloat v) = false ->
  exists rest, (rest = "" \/ rest = ".") /\
               displayFor v = toLocaleString (parseFloat v) ++ rest.
Proof.
  intros Hn. unfold displayFor.
  destruct (String.eqb_spec v "") as [->|Hne]; [discriminate|].
  rewrite Hn. cbn [negb]. rewrite andb_true_r.
  destruct (endsWith v "."); [exists "."|exists ""]; split; auto.
  rewrite append_nil_r. reflexivity.
Qed.

(** *** [parseFloat] returns binary64 values *)

Lemma spanDigits_fst s : allChars isDigit (fst (spanDigits s)) = true.
Proof.
  induction s as [|c s IH]; [reflexivity|]. cbn [spanDigits].
  destruct (isDigit c) eqn:E; [|reflexivity].
  destruct (spanDigits s). simpl in *. rewrite E. assumption.
Qed.

Lemma ofDecimal_valid neg d e10 :
  0 <= d -> valid_binary prec emax (ofDecimal neg d e10) = true.
Proof.
  intros Hd. unfold ofDecimal. destruct (Z.leb_spec 0 e10).
  - apply roundRat_valid; [|lia]. apply Z.mul_nonneg_nonneg; [lia|].
    apply Z.pow_nonneg. lia.
  - apply roundRat_valid; [lia|]. apply Z.pow_pos_nonneg; lia.
Qed.

(** [parseFloat] returns a binary64 value on every text. *)
Lemma parseFloat_valid s : valid_binary prec emax (parseFloat s) = true.
Proof.
  unfold parseFloat. destruct (signPrefix (trimStart s)) as [neg u].
  unfold unsignedLiteral. destruct (String.prefix "Infinity" u); [reflexivity|].
  pose proof (spanDigits_fst u) as Hi. destruct (spanDigits u) as [i r].
  destruct (dotPrefix r) as [r1|].
  - pose proof (spanDigits_fst r1) as Hf. destruct (spanDigits r1) as [f r2].
    destruct (String.eqb i "" && String.eqb f ""); [reflexivity|].
    apply ofDecimal_valid, decimalValue_nonneg. simpl in *.
    rewrite allChars_app, Hi, Hf. reflexivity.
  - destruct (String.eqb i ""); [reflexivity|].
    apply ofDecimal_valid, decimalValue_nonneg. simpl in *.
    rewrite allChars_app, Hi. reflexivity.
Qed.

End Digits.

(** ** The shortest decimal of a Number *)

Module Shortest.
Import JsNumber Rounding Digits.
Local Open Scope Z_scope.

Lemma roundNearestEven_nonneg a b : 0 <= a -> 0 < b -> 0 <= roundNearestEven a b.
Proof.
  intros Ha Hb. apply (roundNearestEven_bracket a b 0 (a + 1)); [assumption|]. nia.
Qed.

Lemma nearestMultiple_nonneg m e q : 0 <= nearestMultiple m e q.
Proof.
  unfold nearestMultiple. apply roundNearestEven_nonneg.
  - repeat apply Z.mul_nonneg_nonneg; try lia; apply Z.pow_nonneg; lia.
  - apply Z.mul_pos_pos; apply Z.pow_pos_nonneg; lia.
Qed.




(** The search stops at the first level where the nearest multiple reads
    back: when one does at the level [q0], within reach, the result reads
    back and is at [q0] or above. *)
Lemma shortestFrom_finds fuel m e q q0 :
  q0 <= q -> q - q0 < Z.of_nat fuel ->
  readsBack m e (nearestMultiple m e q0) q0 = true ->
  let '(j, q') := shortestFrom fuel m e q in
  readsBack m e j q' = true /\ q0 <= q' /\ 0 <= j.
Proof.
  revert q. induction fuel as [|fuel IH]; intros q Hq Hf Hr; [simpl in Hf; lia|].
  cbn [shortestFrom].
  destruct (readsBack m e (nearestMultiple m e q) q) eqn:E.
  - split; [exact E|]. split; [lia|apply nearestMultiple_nonneg].
  - assert (q <> q0) as Hne by (intros ->; congruence).
    apply IH; [lia|lia|assumption].
Qed.

(** A decimal that reads back is one [ofDecimal] rounds to the Number. *)
Lemma readsBack_ofDecimal m e j q :
  readsBack m e j q = true -> ofDecimal false j q = S754_finite false m e.
Proof.
  unfold readsBack. intros H.
  assert (match ofDecimal false j q with
          | S754_zero s | S754_infinity s | S754_finite s _ _ => s = false
          | S754_nan => False
          end) as Hs
    by (unfold ofDecimal; destruct (0 <=? q); apply roundRat_sign).
  destruct (ofDecimal false j q) as [s|s| |s m' e']; try discriminate.
  apply andb_prop in H as [Hm He].
  apply Pos.eqb_eq in Hm. apply Z.eqb_eq in He. subst. reflexivity.
Qed.

Lemma ofDecimal_readsBack m e j q :
  ofDecimal false j q = S754_finite false m e -> readsBack m e j q = true.
Proof.
  unfold readsBack. intros ->. rewrite Pos.eqb_refl, Z.eqb_refl. reflexivity.
Qed.



(** The levels searched reach the thousandths. *)
Lemma shortestDecimal_reaches m e q0 :
  Zpos m < 2 ^ 53 -> e <= expMax -> -3 <= q0 <= 0 ->
  let q := Z.max ((Z.log2 (Zpos m) + e + 1) / 3) 0 + 1 in
  q0 <= q /\ q - q0 < Z.of_nat searchDepth.
Proof.
  intros Hm He Hq0. cbv zeta.
  assert (Z.log2 (Zpos m) < 53) by (apply Z.log2_lt_pow2; lia).
  assert ((Z.log2 (Z.pos m) + e + 1) / 3 <= 342).
  { apply Z.div_le_upper_bound; unfold expMax in *; lia. }
  unfold searchDepth. lia.
Qed.


(** The digits shown for an integer below [2 ^ 53] are its own. *)
Lemma shortest_integer D mp k :
  0 < D -> 0 <= k -> Zpos mp = D * 2 ^ k -> Zpos mp < 2 ^ 53 ->
  roundRat false D 1 = S754_finite false mp (- k) ->
  roundDecimal (shortestDecimal mp (- k)) 3 = 1000 * D.
Proof.
  intros HD Hk Hm Hlt Hx.
  assert (0 < 2 ^ k) as Hpk by (apply Z.pow_pos_nonneg; lia).
  assert (readsBack mp (- k) (nearestMultiple mp (- k) 0) 0 = true) as H0.
  { apply ofDecimal_readsBack. unfold nearestMultiple.
    rewrite (Z.max_r (- k) 0), (Z.max_l (- - k) 0) by lia.
    change (Z.max (- 0) 0) with 0. change (Z.max 0 0) with 0.
    change (10 ^ 0) with 1. change (2 ^ 0) with 1.
    replace (- - k) with k by lia. rewrite !Z.mul_1_r, Hm.
    rewrite (roundNearestEven_unique (D * 2 ^ k) (2 ^ k) D) by lia.
    unfold ofDecimal. cbn [Z.leb Z.compare]. change (10 ^ 0) with 1.
    rewrite Z.mul_1_r. exact Hx. }
  destruct (shortestDecimal_reaches mp (- k) 0 Hlt ltac:(unfold expMax; lia) ltac:(lia))
    as [H1 H2].
  pose proof (shortestFrom_finds searchDepth mp (- k) _ 0 H1 H2 H0) as Hf.
  unfold shortestDecimal.
  destruct (shortestFrom searchDepth mp (- k) _) as [j q'].
  destruct Hf as (Hr & Hq & Hj).
  apply readsBack_ofDecimal in Hr. unfold ofDecimal in Hr.
  destruct (Z.leb_spec 0 q') as [_|]; [|lia].
  set (p := j * 10 ^ q') in *.
  assert (0 < 10 ^ q') as Hp10 by (apply Z.pow_pos_nonneg; lia).
  assert (0 < p) as Hp.
  { destruct (Z.eq_dec p 0) as [E0|]; [rewrite E0 in Hr; discriminate|]. unfold p in *. nia. }
  destruct (roundRat_finite_inv false p 1 false mp (- k) Hp ltac:(lia) Hr)
    as (_ & HE & Herr & _ & _).
  set (E := - k - expMin) in *.
  assert (0 < 2 ^ E) as HpE by (apply Z.pow_pos_nonneg; lia).
  assert (2 ^ (- expMin) = 2 ^ k * 2 ^ E) as EP
    by (rewrite <- Z.pow_add_r by lia; f_equal; unfold E; lia).
  rewrite EP in Herr.
  assert (p * 2 ^ k = Z.pos mp) as Hpm by nia.
  assert (p = D) as HpD by nia.
  unfold roundDecimal. change (Z.of_nat 3) with 3.
  destruct (Z.leb_spec 0 (q' + 3)); [|lia].
  rewrite Z.pow_add_r by lia. change (10 ^ 3) with 1000. fold p in HpD. unfold p in HpD. nia.
Qed.

(** The digits found for a normal Number read back as that Number: the
    search ends at the exact expansion at the latest. *)
Lemma shortestDecimal_readsBack m e :
  2 ^ 52 <= Zpos m < 2 ^ 53 -> expMin <= e <= expMax ->
  readsBack m e (fst (shortestDecimal m e)) (snd (shortestDecimal m e)) = true.
Proof.
  intros Hm He.
  assert (Z.log2 (Zpos m) = 52) as Hl by (apply Z.log2_unique; [lia|exact Hm]).
  set (E := e - expMin).
  assert (0 <= E <= expMax - expMin) as HE by (unfold E; lia).
  assert (0 < 2 ^ E) as HpE by (apply Z.pow_pos_nonneg; lia).
  set (q0 := Z.min e 0).
  assert (readsBack m e (nearestMultiple m e q0) q0 = true) as H0.
  { apply ofDecimal_readsBack. unfold nearestMultiple, ofDecimal, q0.
    replace (S754_finite false m e) with (S754_finite false m (E + expMin))
      by (f_equal; unfold E; lia).
    destruct (Z.leb_spec 0 e) as [H|H].
    - rewrite (Z.min_r e 0), (Z.max_l e 0), (Z.max_r (- e) 0) by lia.
      cbn [Z.leb Z.compare Z.opp Z.max]. change (10 ^ 0) with 1. change (2 ^ 0) with 1.
      rewrite !Z.mul_1_r.
      assert (0 < 2 ^ e) as Hpe by (apply Z.pow_pos_nonneg; lia).
      rewrite (roundNearestEven_unique (Z.pos m * 2 ^ e) 1 (Z.pos m * 2 ^ e)) by lia.
      assert (2 ^ E = 2 ^ e * 2 ^ (- expMin)) as EE
        by (rewrite <- Z.pow_add_r by (unfold expMin; lia); f_equal; unfold E; lia).
      assert (0 < 2 ^ (- expMin)) by (apply Z.pow_pos_nonneg; unfold expMin; lia).
      assert (0 < 2 ^ e * 2 ^ (- expMin)) as HP by nia.
      apply roundRat_intro.
      + nia.
      + lia.
      + exact HE.
      + rewrite EE, Z.mul_1_l, <- Z.mul_assoc.
        set (P := 2 ^ e * 2 ^ (- expMin)) in *. nia.
      + rewrite EE, Z.mul_1_l, <- Z.mul_assoc.
        set (P := 2 ^ e * 2 ^ (- expMin)) in *.
        apply roundNearestEven_unique; nia.
      + lia.
    - rewrite (Z.min_l e 0) by lia. rewrite (Z.max_r e 0), (Z.max_l (- e) 0) by lia.
      destruct (Z.leb_spec 0 e) as [|_]; [lia|].
      change (2 ^ 0) with 1. change (10 ^ 0) with 1. rewrite !Z.mul_1_r.
      assert (0 < 2 ^ (- e)) as Hp2 by (apply Z.pow_pos_nonneg; lia).
      assert (0 < 5 ^ (- e)) as Hp5 by (apply Z.pow_pos_nonneg; lia).
      assert (10 ^ (- e) = 5 ^ (- e) * 2 ^ (- e)) as E10
        by (rewrite <- Z.pow_mul_l; reflexivity).
      rewrite E10.
      rewrite (roundNearestEven_unique (Z.pos m * (5 ^ (- e) * 2 ^ (- e))) (2 ^ (- e))
                 (5 ^ (- e) * Z.pos m)) by nia.
      rewrite roundRat_scale by lia.
      assert (2 ^ (- expMin) = 2 ^ (- e) * 2 ^ E) as EP
        by (rewrite <- Z.pow_add_r by (unfold E, expMin in *; lia); f_equal; unfold E; lia).
      assert (0 < 2 ^ (- e) * 2 ^ E) as HP by nia.
      apply roundRat_intro.
      + lia.
      + lia.
      + exact HE.
      + rewrite EP. set (P := 2 ^ (- e) * 2 ^ E) in *. nia.
      + rewrite EP. set (P := 2 ^ (- e) * 2 ^ E) in *.
        apply roundNearestEven_unique; nia.
      + lia. }
  assert (q0 <= Z.max ((Z.log2 (Z.pos m) + e + 1) / 3) 0 + 1
          /\ Z.max ((Z.log2 (Z.pos m) + e + 1) / 3) 0 + 1 - q0 < Z.of_nat searchDepth)
    as [H1 H2].
  { rewrite Hl. unfold q0, searchDepth, expMin, expMax in *.
    destruct (Z.leb_spec 0 e).
    - assert ((52 + e + 1) / 3 <= 342) by (apply Z.div_le_upper_bound; lia). lia.
    - assert ((52 + e + 1) / 3 <= 18) by (apply Z.div_le_upper_bound; lia). lia. }
  pose proof (shortestFrom_finds searchDepth m e _ q0 H1 H2 H0) as Hf.
  unfold shortestDecimal. destruct (shortestFrom searchDepth m e _) as [j q'].
  apply Hf.
Qed.

(** The digits are the shortest ones, not those of the exact binary
    value: 1.005 is held as 1.00499999999999989..., and prints with two
    fraction digits as 1.01; 1.0005 is held below 1.0005 and prints as
    1.001; 1e23 is held as 99999999999999991611392 and prints as 1 and
    23 zeros. *)
Example shortest_digits_printed :
  formatDecimal 2 2 (parseFloat "1.005") = "1.01" /\
  toLocaleString (parseFloat "1.0005") = "1.001" /\
  toLocaleString (parseFloat "1e23") = "100,000,000,000,000,000,000,000" /\
  toLocaleString (parseFloat "1125899906842624.3") = "1,125,899,906,842,624.2" /\
  toLocaleString (parseFloat "0.0005") = "0.001" /\
  toLocaleString (parseFloat "2.5") = "2.5" /\
  formatDecimal 0 0 (parseFloat "2.5") = "3" /\
  formatDecimal 0 0 (parseFloat "0.5") = "1".
Proof. vm_compute. repeat split. Qed.

End Shortest.

(** ** The round trip through the display text *)

Module RoundTrip.
Import JsString JsNumber Props StringFacts Rounding Digits Shortest InputField.


(** It fails as well on a RawAmount beyond the largest finite Number,
    which parses to an infinity, displayed by a text that does not parse. *)
Lemma overflow_not_read_back :
  let v := "1" ++ repeatN "0" 309 in
  isRawAmount v = true /\
  parseFloat v = S754_infinity false /\
  displayFor v = "∞" /\
  parseFloat (removeGrouping (displayFor v)) = NaN.
Proof. vm_compute. repeat split. Qed.



End RoundTrip.

(** ** Exceptions *)

Module Safety.
Import JsString JsNumber Helpers InputField App.

(** [formatNumber] throws when [decimals] is above the largest number of
    fraction digits [toLocaleString] accepts, on an infinity as on any
    other non-zero Number; and a text that does not parse is displayed as
    it is, neither empty nor zero. *)
Lemma formatNumber_throws :
  formatNumber (parseFloat "1") 101 = Throw RangeError /\
  formatNumber (S754_infinity false) 101 = Throw RangeError /\
  isNaN (parseFloat ".") = true /\ displayFor "." = ".".
Proof. repeat split. Qed.

Lemma digits_in_range d :
  (0 <= d <= maxFractionDigits)%Z ->
  ((d <? 0) || (maxFractionDigits <? d) || (d <? 0) || (maxFractionDigits <? d)
   || (d <? d))%Z = false.
Proof.
  intros H. destruct (Z.ltb_spec d 0); [lia|].
  destruct (Z.ltb_spec maxFractionDigits d); [lia|].
  destruct (Z.ltb_spec d d); [lia|]. reflexivity.
Qed.

Lemma formatNumber_ok n d :
  (0 <= d <= maxFractionDigits)%Z -> exists s, formatNumber n d = Ok s.
Proof.
  intros H. unfold formatNumber, repeat, toLocaleStringWith.
  rewrite digits_in_range by assumption.
  destruct (isNaN n || strictEq n zero); [|eexists; reflexivity].
  destruct (Z.ltb_spec d 0); [lia|]. eexists. reflexivity.
Qed.

Lemma blur_unparsable f :
  isNaN (parseFloat (value f)) = true ->
  blur f = {| value := ""; displayValue := "" |}.
Proof.
  destruct f as [v d]. unfold blur, dispatch, commit, handleBlur. cbn [value].
  intros H. rewrite H. destruct (String.eqb_spec v "") as [->|Hv]; [reflexivity|].
  cbn. destruct (String.eqb_spec v ""); [congruence|reflexivity].
Qed.

(** C9 (amended). With [decimals] an integer from 0 to 100, which covers
    the 0 and 2 the application passes, [formatNumber] throws on no
    Number, and renders the infinities as "∞" and "-∞".  The other
    operations call no primitive that can throw and are total functions
    here.  A text that does not parse signals no failure: each result is
    [0], [formatNumber] renders NaN as a zero, blur clears the value and
    its display text, and display synchronization shows the text as it
    is. *)
Theorem core_never_throws :
  (forall n d, (0 <= d <= maxFractionDigits)%Z -> exists s, formatNumber n d = Ok s) /\
  (forall neg d, (0 <= d <= maxFractionDigits)%Z ->
     formatNumber (S754_infinity neg) d = Ok (signText neg ++ "∞")) /\
  (forall a b, isNaN (parseFloat a) = true \/ isNaN (parseFloat b) = true ->
     pkrToPhpResult a b = zero /\ phpToPkrResult a b = zero /\
     directPkrPhpRate a b = zero /\ crossUsdRate a b = zero) /\
  (forall d, (0 <= d)%Z ->
     formatNumber NaN d = Ok ("0." ++ repeatN "0" (Z.to_nat d))) /\
  (forall f, isNaN (parseFloat (value f)) = true ->
     blur f = {| value := ""; displayValue := "" |}) /\
  (forall v, isNaN (parseFloat v) = true -> displayFor v = v).
Proof.
  split; [exact formatNumber_ok|]. split; [|split; [|split; [|split]]].
  - intros neg d H. unfold formatNumber, toLocaleStringWith.
    rewrite digits_in_range by assumption. destruct neg; reflexivity.
  - intros a b H.
    assert (a = "" \/ b = "" \/ isNaN (parseFloat a) = true
            \/ isNaN (parseFloat b) = true) as H' by tauto.
    apply Results.guard_false in H'.
    unfold pkrToPhpResult, phpToPkrResult, directPkrPhpRate, crossUsdRate.
    rewrite H'. repeat split.
  - intros d H. apply Formatting.formatNumber_zero_branch; [assumption|].
    left. reflexivity.
  - exact blur_unparsable.
  - intros v H. unfold displayFor. rewrite H. cbn [negb]. rewrite andb_false_r.
    destruct (String.eqb_spec v ""); congruence.
Qed.

Lemma core_never_throws_witness :
  (exists s, formatNumber (div (parseFloat "50000") (parseFloat "4.80")) 0 = Ok s) /\
  formatNumber (div (parseFloat "1") (parseFloat "0")) 2 = Ok "∞" /\
  pkrToPhpResult "." "4.80" = zero /\
  formatNumber NaN 2 = Ok "0.00" /\
  blur {| value := "."; displayValue := "." |} = {| value := ""; displayValue := "" |} /\
  displayFor "." = ".".
Proof.
  destruct core_never_throws as (H1 & H2 & H3 & H4 & H5 & H6).
  split; [apply H1; vm_compute; split; discriminate|].
  split; [apply (H2 false 2%Z); vm_compute; split; discriminate|].
  split; [apply (H3 "." "4.80"); left; reflexivity|].
  split; [apply (H4 2%Z); lia|].
  split; [apply H5; reflexivity|apply H6; reflexivity].
Defined.

End Safety.

(** ** The field: events and invariants *)

Module FieldFacts.
Import JsString JsNumber Props StringFacts Sanitize Rounding Digits InputField Events
  Vocabulary.

Lemma field_eq_intro f g :
  value f = value g -> displayValue f = displayValue g -> f = g.
Proof. destruct f, g. simpl. congruence. Qed.

Lemma afterFirstDot_noDots s : countDots s = O -> afterFirstDot s = "".
Proof.
  induction s as [|c s IH]; [reflexivity|]. simpl.
  destruct (isDot c); [discriminate|]. exact IH.
Qed.

(** X1. The sanitized text is the text before the first dot of the
    stripped input, then, when the input has a dot, one dot and every
    later digit; no digit of the input is dropped or moved, whatever the
    number of dots. *)
Theorem cleanedValue_closed_form (input : string) :
  let c := replaceOutside inClass09Dot input in
  cleanedValue input
  = beforeFirstDot c
    ++ (if (0 <? countDots c)%nat then "." ++ digitsOf (afterFirstDot c) else "")
  /\ digitsOf (cleanedValue input) = digitsOf input.
Proof.
  intros c.
  assert (allChars inClass09Dot c = true) as Hc by apply replaceOutside_all.
  assert (cleanedValue input
          = beforeFirstDot c
            ++ (if (0 <? countDots c)%nat then "." ++ digitsOf (afterFirstDot c) else ""))
    as Hform.
  { destruct (countDots c) as [|[|n]] eqn:Ed.
    - rewrite cleanedValue_few_dots by (fold c; lia). fold c.
      cbn [Nat.ltb Nat.leb]. rewrite append_nil_r, beforeFirstDot_id; auto.
    - rewrite cleanedValue_few_dots by (fold c; lia). fold c.
      cbn [Nat.ltb Nat.leb].
      pose proof (first_dot_decompose c ltac:(lia)) as Hdec.
      assert (countDots (afterFirstDot c) = O) as Ha.
      { pose proof (f_equal countDots Hdec) as E.
        rewrite !countDots_app, beforeFirstDot_noDots in E. simpl in E. lia. }
      unfold digitsOf.
      rewrite (replaceOutside_id isDigit (afterFirstDot c))
        by (apply rawAmount_no_dot; [apply afterFirstDot_all; assumption|assumption]).
      exact Hdec.
    - rewrite cleanedValue_many_dots by (fold c; lia). fold c. reflexivity. }
  split; [exact Hform|].
  rewrite Hform. rewrite <- (digitsOf_replaceOutside input). fold c.
  destruct (countDots c) as [|n] eqn:Ed.
  - cbn [Nat.ltb Nat.leb]. rewrite append_nil_r, beforeFirstDot_id; auto.
  - cbn [Nat.ltb Nat.leb]. rewrite (digitsOf_first_dot c) by lia.
    unfold digitsOf. rewrite !replaceOutside_app. simpl.
    rewrite (replaceOutside_id isDigit (replaceOutside isDigit _))
      by apply replaceOutside_all.
    reflexivity.
Qed.

Lemma ofDecimal_not_NaN neg d e : isNaN (ofDecimal neg d e) = false.
Proof.
  unfold ofDecimal. destruct (0 <=? e)%Z.
  - pose proof (roundRat_sign neg (d * 10 ^ e) 1) as H.
    destruct (roundRat neg (d * 10 ^ e) 1); [reflexivity|reflexivity|destruct H|reflexivity].
  - pose proof (roundRat_sign neg d (10 ^ (- e))) as H.
    destruct (roundRat neg d (10 ^ (- e))); [reflexivity|reflexivity|destruct H|reflexivity].
Qed.

Lemma rawAmount_NaN_cases (v : string) :
  isRawAmount v = true ->
  (isNaN (parseFloat v) = true <-> v = "" \/ v = ".").
Proof.
  intros Hraw. split; [|intros [->| ->]; reflexivity].
  unfold isRawAmount in Hraw. apply andb_prop in Hraw as [Hc Hd].
  apply Nat.leb_le in Hd. intros Hnan.
  destruct (countDots v) as [|[|]] eqn:Ed; [| |lia].
  - pose proof (rawAmount_no_dot v Hc Ed) as Hv.
    destruct (String.eqb_spec v "") as [->|Hne]; [left; reflexivity|].
    rewrite parseFloat_integer, ofDecimal_not_NaN in Hnan by assumption.
    discriminate.
  - pose proof (first_dot_decompose v ltac:(lia)) as Hv.
    set (i := beforeFirstDot v) in *. set (f := afterFirstDot v) in *.
    assert (countDots f = O) as Hfd.
    { pose proof (f_equal countDots Hv) as E. rewrite !countDots_app in E.
      unfold i in E. rewrite beforeFirstDot_noDots in E. simpl in E. lia. }
    assert (allChars isDigit i = true) as Hi
      by (apply rawAmount_no_dot; [apply beforeFirstDot_all; assumption
                                  |apply beforeFirstDot_noDots]).
    assert (allChars isDigit f = true) as Hf
      by (apply rawAmount_no_dot; [apply afterFirstDot_all; assumption|assumption]).
    destruct (String.eqb_spec i "") as [Hie|Hie].
    + destruct (String.eqb_spec f "") as [Hfe|Hfe].
      * right. rewrite Hv, Hie, Hfe. reflexivity.
      * pose proof (parseFloat_decimal i f "" Hi Hf (or_introl eq_refl) (or_intror Hfe)) as HP.
        rewrite (append_nil_r f), <- Hv in HP.
        rewrite HP, ofDecimal_not_NaN in Hnan. discriminate.
    + pose proof (parseFloat_decimal i f "" Hi Hf (or_introl eq_refl) (or_introl Hie)) as HP.
      rewrite (append_nil_r f), <- Hv in HP.
      rewrite HP, ofDecimal_not_NaN in Hnan. discriminate.
Qed.

(** X2. Among the RawAmount texts only the empty text and the lone dot do
    not parse: the fallback branches of the effect and of [handleBlur] are
    reached by a sanitized value only for these two. *)
Theorem rawAmount_unparsable (v : string) :
  isRawAmount v = true ->
  (isNaN (parseFloat v) = true <-> v = "" \/ v = ".").
Proof. exact (rawAmount_NaN_cases v). Qed.

Lemma rawAmount_unparsable_witness :
  isNaN (parseFloat "007.50") = true <-> "007.50" = "" \/ "007.50" = ".".
Proof. apply (rawAmount_unparsable "007.50"). reflexivity. Defined.

Lemma change_state (input : string) (f : field) :
  value (change input f) = cleanedValue input /\
  (cleanedValue input = value f -> displayValue (change input f) = value f) /\
  (cleanedValue input <> value f ->
   displayValue (change input f) = displayFor (cleanedValue input)).
Proof.
  destruct f as [v d]. unfold change, dispatch, commit, handleChange.
  cbn [fold_left perform value displayValue].
  destruct (String.eqb_spec v (cleanedValue input)) as [E|E]; cbn [value displayValue].
  - repeat split; congruence.
  - repeat split; congruence.
Qed.

(** X3. A change stores the sanitized text as the value.  When that text
    is the value the field already had (a letter typed, a separator
    deleted), the effect does not run and the display text is left as the
    value itself, without grouping; otherwise the display text is the one
    the effect computes. *)
Theorem change_display (input : string) (f : field) :
  value (change input f) = cleanedValue input /\
  (cleanedValue input = value f -> displayValue (change input f) = value f) /\
  (cleanedValue input <> value f ->
   displayValue (change input f) = displayFor (cleanedValue input)).
Proof. exact (change_state input f). Qed.

Lemma change_display_witness :
  change "1,234x" {| value := "1234"; displayValue := "1,234" |}
  = {| value := "1234"; displayValue := "1234" |} /\
  displayValue (change "1,2345" {| value := "1234"; displayValue := "1,234" |})
  = "12,345".
Proof.
  split.
  - apply field_eq_intro.
    + apply (proj1 (change_display "1,234x" {| value := "1234"; displayValue := "1,234" |})).
    + apply (proj1 (proj2 (change_display "1,234x"
                             {| value := "1234"; displayValue := "1,234" |}))).
      reflexivity.
  - change "12,345" with (displayFor (cleanedValue "1,2345")).
    apply (proj2 (proj2 (change_display "1,2345"
                           {| value := "1234"; displayValue := "1,234" |}))).
    discriminate.
Defined.

Lemma blur_value f :
  value (blur f) = if isNaN (parseFloat (value f)) then "" else value f.
Proof.
  destruct f as [v d]. unfold blur, dispatch, commit, handleBlur. cbn [value].
  destruct (String.eqb_spec v "") as [->|Hv]; [reflexivity|]. cbn [negb].
  destruct (isNaN (parseFloat v)); cbn [negb fold_left perform value displayValue].
  - destruct (String.eqb_spec v ""); reflexivity.
  - rewrite String.eqb_refl. reflexivity.
Qed.

Lemma blur_display f :
  displayValue (blur f)
  = if isNaN (parseFloat (value f)) then ""
    else toLocaleString (parseFloat (value f)).
Proof.
  destruct f as [v d]. unfold blur, dispatch, commit, handleBlur. cbn [value].
  destruct (String.eqb_spec v "") as [->|Hv]; [reflexivity|]. cbn [negb].
  destruct (isNaN (parseFloat v)); cbn [negb fold_left perform value displayValue].
  - destruct (String.eqb_spec v ""); reflexivity.
  - rewrite String.eqb_refl. reflexivity.
Qed.

(** X5. Blur is idempotent: a second loss of focus changes neither the
    value nor the display text. *)
Theorem blur_idempotent (f : field) : blur (blur f) = blur f.
Proof.
  apply field_eq_intro.
  - rewrite !blur_value. destruct (isNaN (parseFloat (value f))) eqn:E;
      [reflexivity|]. rewrite E. reflexivity.
  - rewrite !blur_display, blur_value.
    destruct (isNaN (parseFloat (value f))) eqn:E; [reflexivity|].
    rewrite E. reflexivity.
Qed.

(** X6. On blur a RawAmount value is kept, unless it is the lone dot,
    which is cleared. *)
Theorem blur_clears_lone_dot (f : field) :
  isRawAmount (value f) = true ->
  value (blur f) = if String.eqb (value f) "." then "" else value f.
Proof.
  intros Hraw. rewrite blur_value. destruct f as [v d]. cbn [value] in *.
  pose proof (rawAmount_NaN_cases v Hraw) as [H1 H2].
  destruct (isNaN (parseFloat v)) eqn:E.
  - destruct (H1 eq_refl) as [Hv|Hv]; rewrite Hv; reflexivity.
  - destruct (String.eqb_spec v ".") as [Hd|Hd]; [|reflexivity].
    specialize (H2 (or_intror Hd)). discriminate H2.
Qed.

Lemma blur_clears_lone_dot_witness :
  value (blur {| value := "."; displayValue := "." |}) = "" /\
  value (blur {| value := "12."; displayValue := "12." |}) = "12.".
Proof.
  split.
  - apply (blur_clears_lone_dot {| value := "."; displayValue := "." |}). reflexivity.
  - apply (blur_clears_lone_dot {| value := "12."; displayValue := "12." |}). reflexivity.
Defined.

Lemma step_invariant f e : fieldInvariant f -> fieldInvariant (step f e).
Proof.
  intros [Hraw Hemp]. destruct e as [input|]; cbn [step].
  - destruct (change_state input f) as (Hv & Hsame & Hdiff). split.
    + rewrite Hv. apply cleanedValue_isRawAmount.
    + rewrite Hv. intros Hc.
      destruct (String.eqb_spec (cleanedValue input) (value f)) as [E|E].
      * rewrite Hsame by assumption. congruence.
      * rewrite Hdiff by assumption. rewrite Hc. reflexivity.
  - split.
    + rewrite blur_value. destruct (isNaN (parseFloat (value f))); [reflexivity|assumption].
    + rewrite blur_value, blur_display.
      destruct (isNaN (parseFloat (value f))) eqn:E; [reflexivity|].
      intros Hv. rewrite Hv in E. discriminate.
Qed.

(** X4. Whatever the sequence of changes and blurs applied to a freshly
    mounted field, its value is a RawAmount (digits with at most one dot),
    and its display text is empty whenever its value is. *)
Theorem reachable_invariant (es : list event) :
  isRawAmount (value (run es initial)) = true /\
  (value (run es initial) = "" -> displayValue (run es initial) = "").
Proof.
  change (fieldInvariant (run es initial)).
  assert (fieldInvariant initial) as H0 by (split; reflexivity).
  revert H0. generalize initial. unfold run.
  induction es as [|e es IH]; intros f Hf; [exact Hf|].
  cbn [fold_left]. apply IH, step_invariant, Hf.
Qed.

Lemma reachable_invariant_witness :
  let f := run [Change "12a.5.7"; Blur; Change ""] initial in
  isRawAmount (value f) = true /\ displayValue f = "".
Proof.
  destruct (reachable_invariant [Change "12a.5.7"; Blur; Change ""]) as [H1 H2].
  split; [exact H1|]. apply H2. vm_compute. reflexivity.
Defined.

End FieldFacts.

(** ** Formatting, results and panels *)

Module FormatFacts.
Import JsString JsNumber Props StringFacts Rounding Digits Helpers App Panels Vocabulary
  Safety FieldFacts.

Lemma groupThousands_noDots s :
  allChars isDigit s = true -> countDots (groupThousands s) = O.
Proof.
  induction s as [|c s IH]; [reflexivity|].
  intros H. simpl in H. apply andb_prop in H as [Hc Hs].
  cbn [groupThousands countDots]. rewrite (isDigit_not_dot c Hc).
  destruct ((0 <? String.length s)%nat && (String.length s mod 3 =? 0)%nat);
    cbn [countDots]; rewrite ?IH by assumption; reflexivity.
Qed.

Lemma trimFraction_keep k f :
  (String.length f <= k)%nat -> trimFraction k f = f.
Proof.
  revert k. induction f as [|c f IH]; intros k Hk; [reflexivity|].
  simpl in Hk. destruct k as [|k]; [lia|].
  cbn [trimFraction]. rewrite IH by lia. reflexivity.
Qed.

Lemma signText_noDots neg : countDots (signText neg) = O.
Proof. destruct neg; reflexivity. Qed.

(** The text of a finite magnitude with exactly [k] fraction digits. *)
Lemma groupedDecimal_fraction neg k n :
  fractionDigits (signText neg ++ groupedDecimal k k n) = k.
Proof.
  unfold groupedDecimal, fractionDigits.
  rewrite trimFraction_keep by (rewrite fixedDigits_length; lia).
  set (I := groupThousands (decimalDigits (n / 10 ^ Z.of_nat k))).
  set (F := fixedDigits k (n mod 10 ^ Z.of_nat k)).
  assert (countDots (signText neg ++ I) = O) as HI.
  { rewrite countDots_app, signText_noDots. unfold I.
    apply groupThousands_noDots, decimalDigits_digits. }
  assert (String.length F = k) as HF by apply fixedDigits_length.
  destruct (String.eqb_spec F "") as [E|E].
  - rewrite append_nil_r, afterFirstDot_noDots by assumption.
    rewrite E in HF. exact HF.
  - rewrite <- append_assoc, afterFirstDot_app_dot by assumption. exact HF.
Qed.

(** X7. For a Number that is not an infinity and an integer [decimals]
    from 0 to 100, [formatNumber] returns a text with exactly [decimals]
    characters after its decimal point (none, and no point, when a
    non-zero Number is given no decimals). *)
Theorem formatNumber_fraction_digits (n : number) (decimals : Z) :
  (0 <= decimals <= maxFractionDigits)%Z -> isInfinity n = false ->
  exists text, formatNumber n decimals = Ok text /\
               fractionDigits text = Z.to_nat decimals.
Proof.
  intros Hd Hinf. unfold formatNumber.
  destruct (isNaN n || strictEq n zero) eqn:Ez.
  - unfold repeat. destruct (Z.ltb_spec decimals 0); [lia|].
    eexists. split; [reflexivity|].
    unfold fractionDigits. cbn [bind append afterFirstDot isDot].
    change (isDot "0") with false. change (isDot ".") with true. cbn iota.
    apply Formatting.repeatN_length.
  - unfold toLocaleStringWith. rewrite digits_in_range by assumption.
    eexists. split; [reflexivity|].
    destruct n as [s|s| |s m e];
      [destruct s; discriminate Ez|discriminate Hinf|discriminate Ez|].
    apply groupedDecimal_fraction.
Qed.

Lemma formatNumber_fraction_digits_witness :
  exists text,
    formatNumber (div (parseFloat "50000") (parseFloat "4.80")) 2 = Ok text /\
    fractionDigits text = 2%nat.
Proof.
  apply (formatNumber_fraction_digits _ 2%Z); vm_compute; [split; discriminate|reflexivity].
Defined.

(** The sign of a rounded result is the one asked for. *)
Lemma binary_round_aux_sign sx mx ex lx :
  match binary_round_aux prec emax sx mx ex lx with
  | S754_nan => True
  | S754_zero s | S754_infinity s | S754_finite s _ _ => s = sx
  end.
Proof.
  unfold binary_round_aux.
  destruct (shr_fexp prec emax mx ex lx) as [mrs' e'].
  destruct (shr_fexp prec emax _ e' loc_Exact) as [mrs'' e''].
  destruct (shr_m mrs''); [reflexivity| |exact I].
  destruct (e'' <=? emax - prec)%Z; reflexivity.
Qed.

Lemma div_notNegative x y :
  notNegative x = true -> notNegative y = true -> notNegative (div x y) = true.
Proof.
  destruct x as [sx|sx| |sx mx ex], y as [sy|sy| |sy my ey]; simpl;
    intros Hx Hy; try reflexivity;
    apply negb_true_iff in Hx, Hy; subst; try reflexivity.
  unfold div, SFdiv.
  destruct (SFdiv_core_binary prec emax (Z.pos mx) ex (Z.pos my) ey) as [[mz ez] lz].
  pose proof (binary_round_aux_sign (xorb false false) mz ez lz) as H.
  destruct (binary_round_aux prec emax (xorb false false) mz ez lz);
    simpl; try rewrite H; reflexivity.
Qed.

Lemma mul_notNegative x y :
  notNegative x = true -> notNegative y = true -> notNegative (mul x y) = true.
Proof.
  destruct x as [sx|sx| |sx mx ex], y as [sy|sy| |sy my ey]; simpl;
    intros Hx Hy; try reflexivity;
    apply negb_true_iff in Hx, Hy; subst; try reflexivity.
  unfold mul, SFmul.
  pose proof (binary_round_aux_sign (xorb false false) (Z.pos (mx * my)) (ex + ey) loc_Exact) as H.
  destruct (binary_round_aux prec emax (xorb false false) (Z.pos (mx * my)) (ex + ey) loc_Exact);
    simpl; try rewrite H; reflexivity.
Qed.


Lemma parseFloat_rawAmount_form v :
  isRawAmount v = true ->
  parseFloat v = NaN \/ exists d e, parseFloat v = ofDecimal false d e.
Proof.
  unfold isRawAmount. intros H. apply andb_prop in H as [Hc Hd].
  apply Nat.leb_le in Hd.
  destruct (countDots v) as [|[|]] eqn:Ed; [| |lia].
  - pose proof (rawAmount_no_dot v Hc Ed) as Hv.
    destruct (String.eqb_spec v "") as [->|Hne]; [left; reflexivity|].
    right. eexists _, _. apply parseFloat_integer; assumption.
  - pose proof (first_dot_decompose v ltac:(lia)) as Hv.
    set (i := beforeFirstDot v) in *. set (f := afterFirstDot v) in *.
    assert (countDots f = O) as Hfd.
    { pose proof (f_equal countDots Hv) as E. rewrite !countDots_app in E.
      unfold i in E. rewrite beforeFirstDot_noDots in E. simpl in E. lia. }
    assert (allChars isDigit i = true) as Hi
      by (apply rawAmount_no_dot; [apply beforeFirstDot_all; assumption
                                  |apply beforeFirstDot_noDots]).
    assert (allChars isDigit f = true) as Hf
      by (apply rawAmount_no_dot; [apply afterFirstDot_all; assumption|assumption]).
    destruct (String.eqb_spec i "") as [Hie|Hie];
      [destruct (String.eqb_spec f "") as [Hfe|Hfe]|].
    + left. rewrite Hv, Hie, Hfe. reflexivity.
    + right. eexists _, _.
      pose proof (parseFloat_decimal i f "" Hi Hf (or_introl eq_refl) (or_intror Hfe)) as HP.
      rewrite (append_nil_r f), <- Hv in HP. exact HP.
    + right. eexists _, _.
      pose proof (parseFloat_decimal i f "" Hi Hf (or_introl eq_refl) (or_introl Hie)) as HP.
      rewrite (append_nil_r f), <- Hv in HP. exact HP.
Qed.

Lemma ofDecimal_notNegative d e : notNegative (ofDecimal false d e) = true.
Proof.
  unfold ofDecimal. destruct (0 <=? e)%Z.
  - pose proof (roundRat_sign false (d * 10 ^ e) 1) as H.
    destruct (roundRat false (d * 10 ^ e) 1); simpl; try rewrite H; reflexivity.
  - pose proof (roundRat_sign false d (10 ^ (- e))) as H.
    destruct (roundRat false d (10 ^ (- e))); simpl; try rewrite H; reflexivity.
Qed.

Lemma parseFloat_rawAmount_notNegative v :
  isRawAmount v = true -> notNegative (parseFloat v) = true.
Proof.
  intros H. destruct (parseFloat_rawAmount_form v H) as [->|(d & e & ->)];
    [reflexivity|apply ofDecimal_notNegative].
Qed.

(** X8. With RawAmount texts in the fields, no result is negative: each
    is NaN or a Number whose sign is clear. *)
Theorem results_not_negative (a b : string) :
  isRawAmount a = true -> isRawAmount b = true ->
  notNegative (pkrToPhpResult a b) = true /\
  notNegative (phpToPkrResult a b) = true /\
  notNegative (directPkrPhpRate a b) = true /\
  notNegative (crossUsdRate a b) = true.
Proof.
  intros Ha Hb.
  pose proof (parseFloat_rawAmount_notNegative a Ha) as Na.
  pose proof (parseFloat_rawAmount_notNegative b Hb) as Nb.
  unfold pkrToPhpResult, phpToPkrResult, directPkrPhpRate, crossUsdRate.
  destruct (truthy b && truthy a && negb (isNaN (parseFloat a))
            && negb (isNaN (parseFloat b)));
    repeat split; try reflexivity;
    (apply div_notNegative || apply mul_notNegative); assumption.
Qed.

Lemma results_not_negative_witness :
  notNegative (pkrToPhpResult "50000" "4.80") = true /\
  notNegative (crossUsdRate "0" "0") = true.
Proof.
  destruct (results_not_negative "50000" "4.80" eq_refl eq_refl) as (H1 & _).
  destruct (results_not_negative "0" "0" eq_refl eq_refl) as (_ & _ & _ & H4).
  split; assumption.
Defined.

(** X9. A divisor that parses to zero is not guarded.  With a dividend
    that parses to a non-zero finite Number the three quotients are an
    infinity, which the panels show as the infinity sign; with a dividend
    that parses to zero they are NaN, which the panels show as a zero. *)
Theorem zero_rate_unguarded (a b : string) (sb : bool) :
  a <> "" -> b <> "" -> parseFloat b = S754_zero sb ->
  (forall sa m e, parseFloat a = S754_finite sa m e ->
     pkrToPhpResult a b = S754_infinity (xorb sa sb) /\
     directPkrPhpRate a b = S754_infinity (xorb sa sb) /\
     crossUsdRate a b = S754_infinity (xorb sa sb) /\
     ResultDisplay (pkrToPhpResult a b) (Some 0%Z) = Ok (signText (xorb sa sb) ++ "∞") /\
     ResultDisplay (directPkrPhpRate a b) (Some 2%Z) = Ok (signText (xorb sa sb) ++ "∞")) /\
  (forall sa, parseFloat a = S754_zero sa ->
     pkrToPhpResult a b = NaN /\ directPkrPhpRate a b = NaN /\ crossUsdRate a b = NaN /\
     ResultDisplay (pkrToPhpResult a b) (Some 0%Z) = Ok "0." /\
     ResultDisplay (directPkrPhpRate a b) (Some 2%Z) = Ok "0.00").
Proof.
  intros Ha Hb Pb.
  assert (forall x, parseFloat a = x -> isNaN x = false ->
            pkrToPhpResult a b = div x (S754_zero sb) /\
            directPkrPhpRate a b = div x (S754_zero sb) /\
            crossUsdRate a b = div x (S754_zero sb)) as Hres.
  { intros x Px Nx.
    unfold pkrToPhpResult, directPkrPhpRate, crossUsdRate.
    rewrite (Results.guard_true a b Ha Hb) by (rewrite ?Px, ?Pb; auto).
    rewrite Px, Pb. repeat split. }
  split.
  - intros sa m e Pa. destruct (Hres _ Pa eq_refl) as (H1 & H2 & H3).
    rewrite H1, H2, H3. repeat split; destruct sa, sb; reflexivity.
  - intros sa Pa. destruct (Hres _ Pa eq_refl) as (H1 & H2 & H3).
    rewrite H1, H2, H3. repeat split.
Qed.

Lemma zero_rate_unguarded_witness :
  pkrToPhpResult "50000" "0" = S754_infinity false /\
  ResultDisplay (pkrToPhpResult "50000" "0") (Some 0%Z) = Ok "∞" /\
  ResultDisplay (directPkrPhpRate "0" "0.0") (Some 2%Z) = Ok "0.00".
Proof.
  assert ("50000" <> "") as H1 by discriminate.
  assert ("0" <> "") as H2 by discriminate.
  assert ("0.0" <> "") as H3 by discriminate.
  assert (parseFloat "0" = S754_zero false) as P0 by (vm_compute; reflexivity).
  assert (parseFloat "0.0" = S754_zero false) as P00 by (vm_compute; reflexivity).
  assert (parseFloat "50000" = S754_finite false 6871947673600000 (-37)) as P5
    by (vm_compute; reflexivity).
  destruct (zero_rate_unguarded "50000" "0" false H1 H2 P0) as [Hfin _].
  destruct (Hfin _ _ _ P5) as (R1 & _ & _ & R4 & _).
  destruct (zero_rate_unguarded "0" "0.0" false H2 H3 P00) as [_ Hz].
  destruct (Hz _ P0) as (_ & _ & _ & _ & R5).
  split; [exact R1|]. split; [exact R4|exact R5].
Defined.

(** X10. Whatever the eight fields hold, the four result panels render:
    no [ResultDisplay] of the application throws. *)
Theorem panels_always_render (s : amounts) :
  exists t1 t2 t3 t4, resultTexts s = Ok [t1; t2; t3; t4].
Proof.
  unfold resultTexts, ResultDisplay.
  destruct (formatNumber_ok (pkrToPhpResult (pkrAmount1 s) (rate1 s)) 0) as [t1 ->];
    [unfold maxFractionDigits; lia|].
  destruct (formatNumber_ok (phpToPkrResult (phpAmount1 s) (rate2 s)) 0) as [t2 ->];
    [unfold maxFractionDigits; lia|].
  destruct (formatNumber_ok (directPkrPhpRate (pkrAmount2 s) (phpAmount2 s)) 2) as [t3 ->];
    [unfold maxFractionDigits; lia|].
  destruct (formatNumber_ok (crossUsdRate (usdPkrRate s) (usdPhpRate s)) 2) as [t4 ->];
    [unfold maxFractionDigits; lia|].
  exists t1, t2, t3, t4. reflexivity.
Qed.

Lemma mul_comm x y : mul x y = mul y x.
Proof.
  unfold mul, SFmul.
  destruct x as [sx|sx| |sx mx ex], y as [sy|sy| |sy my ey];
    try reflexivity; try (rewrite (xorb_comm sx sy); reflexivity).
  rewrite (xorb_comm sx sy), (Pos.mul_comm mx my), (Z.add_comm ex ey). reflexivity.
Qed.

(** X11. The product panel is symmetric: swapping the amount and the rate
    gives the same result. *)
Theorem phpToPkrResult_symmetric (a b : string) :
  phpToPkrResult a b = phpToPkrResult b a.
Proof.
  unfold phpToPkrResult. rewrite (mul_comm (parseFloat a) (parseFloat b)).
  destruct (truthy a), (truthy b), (isNaN (parseFloat a)), (isNaN (parseFloat b));
    reflexivity.
Qed.

End FormatFacts.

Module ThemeFacts.
Import Theme.

Lemma contains_add token classes t :
  contains (add token classes) t = contains classes t || String.eqb t token.
Proof.
  unfold add. destruct (contains classes token) eqn:E.
  - destruct (String.eqb_spec t token) as [->|]; [|rewrite orb_false_r; reflexivity].
    rewrite E. reflexivity.
  - unfold contains. rewrite existsb_app. simpl. rewrite orb_false_r. reflexivity.
Qed.

Lemma contains_remove token classes t :
  contains (remove token classes) t = contains classes t && negb (String.eqb t token).
Proof.
  unfold contains, remove. induction classes as [|c cs IH]; [reflexivity|].
  cbn [filter existsb]. destruct (String.eqb_spec c token) as [->|Hc]; cbn [negb].
  - rewrite IH. destruct (String.eqb_spec t token); cbn [negb orb];
      [rewrite !andb_false_r|rewrite !andb_true_r]; reflexivity.
  - cbn [existsb]. rewrite IH.
    destruct (String.eqb_spec t c) as [->|]; [|reflexivity].
    cbn [orb]. destruct (String.eqb_spec c token); [contradiction|reflexivity].
Qed.

Lemma toggle_contains (s : theme) :
  contains (rootClasses (toggleDarkMode s)) "dark" = darkMode (toggleDarkMode s) /\
  (forall t, t <> "dark" ->
     contains (rootClasses (toggleDarkMode s)) t = contains (rootClasses s) t).
Proof.
  unfold toggleDarkMode. cbn [darkMode rootClasses].
  destruct (darkMode s); cbn [negb]; split.
  - rewrite contains_remove. rewrite String.eqb_refl. apply andb_false_r.
  - intros t Ht. rewrite contains_remove. apply String.eqb_neq in Ht.
    rewrite Ht. apply andb_true_r.
  - rewrite contains_add. rewrite String.eqb_refl. apply orb_true_r.
  - intros t Ht. rewrite contains_add. apply String.eqb_neq in Ht.
    rewrite Ht. apply orb_false_r.
Qed.

(** X12. After a toggle, and after a mount that finds a dark preference,
    the root element has the class "dark" exactly when [darkMode] is
    true; a toggle changes no other class. *)
Theorem toggle_class_follows_mode (s : theme) :
  contains (rootClasses (initDarkMode true s)) "dark" = darkMode (initDarkMode true s) /\
  contains (rootClasses (toggleDarkMode s)) "dark" = darkMode (toggleDarkMode s) /\
  (forall t, t <> "dark" ->
     contains (rootClasses (toggleDarkMode s)) t = contains (rootClasses s) t).
Proof.
  split; [|exact (toggle_contains s)].
  unfold initDarkMode. cbn [darkMode rootClasses].
  rewrite contains_add, String.eqb_refl. apply orb_true_r.
Qed.

Lemma toggle_class_follows_mode_witness :
  contains (rootClasses (toggleDarkMode {| darkMode := true;
                                           rootClasses := ["dark"; "h-full"] |}))
           "h-full" = true.
Proof.
  apply (proj2 (proj2 (toggle_class_follows_mode
                         {| darkMode := true; rootClasses := ["dark"; "h-full"] |}))).
  discriminate.
Defined.

(** X13. When the class "dark" agrees with [darkMode], two toggles
    restore [darkMode] and leave the root element with the same classes. *)
Theorem toggle_twice (s : theme) :
  contains (rootClasses s) "dark" = darkMode s ->
  darkMode (toggleDarkMode (toggleDarkMode s)) = darkMode s /\
  forall t, contains (rootClasses (toggleDarkMode (toggleDarkMode s))) t
            = contains (rootClasses s) t.
Proof.
  intros Hinv. split.
  - unfold toggleDarkMode. cbn [darkMode]. apply negb_involutive.
  - intros t. destruct (String.eqb_spec t "dark") as [->|Ht].
    + rewrite (proj1 (toggle_contains (toggleDarkMode s))).
      unfold toggleDarkMode. cbn [darkMode]. rewrite negb_involutive. auto.
    + rewrite (proj2 (toggle_contains (toggleDarkMode s)) t Ht).
      apply (proj2 (toggle_contains s) t Ht).
Qed.

Lemma toggle_twice_witness :
  darkMode (toggleDarkMode (toggleDarkMode {| darkMode := true;
                                              rootClasses := ["dark"; "h-full"] |}))
  = true.
Proof.
  apply (proj1 (toggle_twice {| darkMode := true; rootClasses := ["dark"; "h-full"] |}
                             eq_refl)).
Defined.

End ThemeFacts.

(** ** Integers, typing and the display text *)

Module IntegerFacts.
Import JsString JsNumber Props StringFacts Sanitize Rounding Digits Shortest InputField
  Vocabulary.
Local Open Scope Z_scope.
Local Open Scope string_scope.

(** *** Integers below [2 ^ 53] are Numbers *)

Lemma roundRat_integer_exact D :
  0 < D < 2 ^ 53 ->
  exists mp k, 0 <= k /\ roundRat false D 1 = S754_finite false mp (- k)
               /\ Zpos mp = D * 2 ^ k.
Proof.
  intros HD. set (k := 52 - Z.log2 D).
  pose proof (Z.log2_spec D ltac:(lia)) as [Hlo Hhi].
  assert (Z.log2 D < 53) as Hl by (apply Z.log2_lt_pow2; lia).
  assert (0 <= Z.log2 D) as Hl0 by apply Z.log2_nonneg.
  assert (0 <= k) as Hk by (unfold k; lia).
  assert (0 < 2 ^ k) as Hpk by (apply Z.pow_pos_nonneg; lia).
  assert (2 ^ Z.log2 D * 2 ^ k = 2 ^ 52) as E1
    by (rewrite <- Z.pow_add_r by lia; f_equal; unfold k; lia).
  assert (2 ^ Z.succ (Z.log2 D) * 2 ^ k = 2 ^ 53) as E2
    by (rewrite <- Z.pow_add_r by lia; f_equal; unfold k; lia).
  assert (2 ^ 52 <= D * 2 ^ k < 2 ^ 53) as Hm by nia.
  destruct (D * 2 ^ k) as [|mp|mp] eqn:Em; try lia.
  exists mp, k. split; [assumption|]. split; [|symmetry; exact Em].
  set (E := - expMin - k).
  assert (0 <= E) as HE by (unfold E, expMin, k; lia).
  assert (0 < 2 ^ E) as HpE by (apply Z.pow_pos_nonneg; lia).
  assert (2 ^ (- expMin) = 2 ^ k * 2 ^ E) as EP
    by (rewrite <- Z.pow_add_r by lia; f_equal; unfold E; lia).
  replace (- k) with (E + expMin) by (unfold E; lia).
  apply roundRat_intro; try lia.
  - unfold E, expMin, expMax, k. lia.
  - rewrite EP. nia.
  - rewrite EP. apply roundNearestEven_unique; [lia|]. nia.
Qed.

Lemma groupedDecimal_integer D :
  0 <= D -> groupedDecimal 0 3 (1000 * D) = groupThousands (decimalDigits D).
Proof.
  intros HD. unfold groupedDecimal. change (10 ^ Z.of_nat 3) with 1000.
  replace (1000 * D) with (D * 1000) by ring.
  rewrite Z.div_mul, Z.mod_mul by lia. cbn. apply append_nil_r.
Qed.

(** The text [toLocaleString] gives for an integer below [2 ^ 53]. *)
Lemma toLocaleString_integer D :
  0 <= D < 2 ^ 53 ->
  toLocaleString (roundRat false D 1) = groupThousands (decimalDigits D).
Proof.
  intros HD. destruct (Z.eq_dec D 0) as [->|Hz]; [reflexivity|].
  destruct (roundRat_integer_exact D ltac:(lia)) as (mp & k & Hk & Hx & Hm).
  destruct (roundRat_finite_inv false D 1 false mp (- k) ltac:(lia) ltac:(lia) Hx)
    as (_ & _ & _ & Hlt & _).
  rewrite Hx. unfold toLocaleString, formatDecimal. cbn [signText append].
  rewrite (shortest_integer D mp k ltac:(lia) Hk Hm Hlt Hx).
  apply groupedDecimal_integer. lia.
Qed.

(** *** Digits without leading zeros are determined by their value *)

Lemma decimalValue_cons c s :
  decimalValue (String c s)
  = digitValue c * 10 ^ Z.of_nat (String.length s) + decimalValue s.
Proof.
  change (String c s) with (String c "" ++ s). rewrite decimalValue_app.
  unfold decimalValue at 1. simpl. lia.
Qed.

Lemma decimalValue_upper s :
  allChars isDigit s = true -> decimalValue s < 10 ^ Z.of_nat (String.length s).
Proof.
  induction s as [|c s IH]; intros H; [reflexivity|].
  simpl in H. apply andb_prop in H as [Hc Hs]. specialize (IH Hs).
  rewrite decimalValue_cons. cbn [String.length].
  rewrite Nat2Z.inj_succ, Z.pow_succ_r by lia.
  pose proof (isDigit_range c Hc). nia.
Qed.

Lemma digitValue_inj c d :
  isDigit c = true -> isDigit d = true -> digitValue c = digitValue d -> c = d.
Proof.
  unfold digitValue. intros _ _ H.
  rewrite <- (ascii_nat_embedding c), <- (ascii_nat_embedding d). f_equal. lia.
Qed.

Lemma digits_same_length s t :
  allChars isDigit s = true -> allChars isDigit t = true ->
  String.length s = String.length t -> decimalValue s = decimalValue t -> s = t.
Proof.
  revert t. induction s as [|c s IH]; intros [|d t] Hs Ht Hl Hv;
    try discriminate; [reflexivity|].
  simpl in Hs, Ht, Hl. apply andb_prop in Hs as [Hc Hs]. apply andb_prop in Ht as [Hd Ht].
  injection Hl as Hl. rewrite !decimalValue_cons, Hl in Hv.
  pose proof (decimalValue_upper s Hs) as Us. pose proof (decimalValue_upper t Ht) as Ut.
  pose proof (decimalValue_nonneg s Hs). pose proof (decimalValue_nonneg t Ht).
  rewrite Hl in Us.
  assert (digitValue c = digitValue d) as Hcd by nia.
  rewrite (digitValue_inj c d Hc Hd Hcd). f_equal.
  apply IH; try assumption. nia.
Qed.

Lemma stripLeadingZeros_head s :
  match stripLeadingZeros s with
  | String c _ => isZeroChar c = false
  | EmptyString => True
  end.
Proof.
  induction s as [|c s IH]; [exact I|]. cbn [stripLeadingZeros].
  destruct (isZeroChar c) eqn:E; [exact IH|exact E].
Qed.

Lemma decimalValue_lower c s :
  isDigit c = true -> isZeroChar c = false -> allChars isDigit s = true ->
  10 ^ Z.of_nat (String.length s) <= decimalValue (String c s).
Proof.
  intros Hc Hz Hs. rewrite decimalValue_cons.
  pose proof (isDigit_range c Hc) as Hr. pose proof (decimalValue_nonneg s Hs).
  assert (digitValue c <> 0) as Hn.
  { intros E. unfold isZeroChar in Hz. apply Ascii.eqb_neq in Hz. apply Hz.
    apply digitValue_inj; [assumption|reflexivity|]. rewrite E. reflexivity. }
  assert (0 < 10 ^ Z.of_nat (String.length s)) by (apply Z.pow_pos_nonneg; lia).
  nia.
Qed.

Lemma stripped_unique s t :
  allChars isDigit s = true -> allChars isDigit t = true ->
  decimalValue s = decimalValue t ->
  stripLeadingZeros s = stripLeadingZeros t.
Proof.
  intros Hs Ht Hv.
  pose proof (stripLeadingZeros_digits s Hs) as Ds.
  pose proof (stripLeadingZeros_digits t Ht) as Dt.
  rewrite <- (stripLeadingZeros_value s), <- (stripLeadingZeros_value t) in Hv.
  pose proof (stripLeadingZeros_head s) as Zs.
  pose proof (stripLeadingZeros_head t) as Zt.
  destruct (stripLeadingZeros s) as [|c s'], (stripLeadingZeros t) as [|d t'].
  - reflexivity.
  - simpl in Dt. apply andb_prop in Dt as [Dd Dt].
    pose proof (decimalValue_lower d t' Dd Zt Dt) as L.
    assert (0 < 10 ^ Z.of_nat (String.length t')) by (apply Z.pow_pos_nonneg; lia).
    rewrite <- Hv in L. change (decimalValue "") with 0 in L. lia.
  - simpl in Ds. apply andb_prop in Ds as [Dc Ds].
    pose proof (decimalValue_lower c s' Dc Zs Ds) as L.
    assert (0 < 10 ^ Z.of_nat (String.length s')) by (apply Z.pow_pos_nonneg; lia).
    rewrite Hv in L. change (decimalValue "") with 0 in L. lia.
  - pose proof Ds as Ds0. pose proof Dt as Dt0.
    simpl in Ds, Dt. apply andb_prop in Ds as [Dc Ds]. apply andb_prop in Dt as [Dd Dt].
    pose proof (decimalValue_lower c s' Dc Zs Ds) as Ls.
    pose proof (decimalValue_lower d t' Dd Zt Dt) as Lt.
    pose proof (decimalValue_upper _ Ds0) as Us.
    pose proof (decimalValue_upper _ Dt0) as Ut.
    cbn [String.length] in Us, Ut. rewrite Nat2Z.inj_succ in Us, Ut.
    apply digits_same_length; try assumption.
    cbn [String.length]. f_equal.
    destruct (Nat.lt_trichotomy (String.length s') (String.length t')) as [Hl|[Hl|Hl]];
      [exfalso|assumption|exfalso].
    + assert (10 ^ Z.succ (Z.of_nat (String.length s')) <= 10 ^ Z.of_nat (String.length t'))
        by (apply Z.pow_le_mono_r; lia). lia.
    + assert (10 ^ Z.succ (Z.of_nat (String.length t')) <= 10 ^ Z.of_nat (String.length s'))
        by (apply Z.pow_le_mono_r; lia). lia.
Qed.

Lemma decimalDigits_canonical v :
  allChars isDigit v = true -> decimalDigits (decimalValue v) = canonicalDigits v.
Proof.
  intros Hv. unfold decimalDigits, canonicalDigits.
  set (k := S (Z.to_nat (Z.log2 (decimalValue v)))).
  rewrite (stripped_unique (fixedDigits k (decimalValue v)) v);
    [reflexivity|apply fixedDigits_digits|assumption|].
  pose proof (decimalValue_nonneg v Hv) as H0.
  pose proof (decimalDigits_value (decimalValue v) H0) as Hd.
  unfold decimalDigits in Hd. fold k in Hd.
  rewrite <- (stripLeadingZeros_value (fixedDigits k (decimalValue v))).
  destruct (stripLeadingZeros (fixedDigits k (decimalValue v))) eqn:E; [|exact Hd].
  rewrite <- Hd. reflexivity.
Qed.

Lemma canonicalDigits_digits v :
  allChars isDigit v = true -> allChars isDigit (canonicalDigits v) = true.
Proof.
  intros Hv. unfold canonicalDigits.
  pose proof (stripLeadingZeros_digits v Hv) as H.
  destruct (stripLeadingZeros v); [reflexivity|exact H].
Qed.

Lemma endsWith_dot_digits v : allChars isDigit v = true -> endsWith v "." = false.
Proof.
  induction v as [|c v IH]; [reflexivity|].
  intros H. simpl in H. apply andb_prop in H as [Hc Hv].
  cbn [endsWith]. rewrite IH by assumption. rewrite orb_false_r.
  apply String.eqb_neq. intros E. injection E as -> _. discriminate Hc.
Qed.

Lemma displayFor_integer v :
  allChars isDigit v = true -> v <> "" -> decimalValue v < 2 ^ 53 ->
  displayFor v = groupThousands (canonicalDigits v).
Proof.
  intros Hv Hne Hlt. unfold displayFor.
  destruct (String.eqb_spec v ""); [contradiction|].
  rewrite endsWith_dot_digits by assumption. cbn [andb].
  rewrite (parseFloat_integer v Hv Hne).
  assert (isNaN (ofDecimal false (decimalValue v) 0) = false) as ->.
  { pose proof (roundRat_sign false (decimalValue v * 10 ^ 0) 1) as H.
    unfold ofDecimal. cbn [Z.leb Z.compare].
    destruct (roundRat false (decimalValue v * 10 ^ 0) 1); try reflexivity. destruct H. }
  cbn [negb].
  unfold ofDecimal. cbn [Z.leb Z.compare].
  change (10 ^ 0) with 1. rewrite Z.mul_1_r.
  rewrite toLocaleString_integer by (pose proof (decimalValue_nonneg v Hv); lia).
  rewrite decimalDigits_canonical by assumption. reflexivity.
Qed.


(** Stripping a grouped text of digits gives the digits back. *)
Lemma replaceOutside_group s :
  allChars isDigit s = true ->
  replaceOutside inClass09Dot (groupThousands s) = s.
Proof.
  induction s as [|c s IH]; [reflexivity|].
  intros H. simpl in H. apply andb_prop in H as [Hc Hs].
  cbn [groupThousands replaceOutside]. rewrite (isDigit_inClass c Hc). f_equal.
  destruct ((0 <? String.length s)%nat && (String.length s mod 3 =? 0)%nat);
    [cbn [replaceOutside]; change (inClass09Dot ",") with false; cbn iota|];
    apply IH; assumption.
Qed.

(** X14. A value made of digits whose number is below [2 ^ 53] is shown
    exactly: its digits without leading zeros, with a separator before
    each group of three; without the separators the display text is the
    value without its leading zeros. *)
Theorem integer_displayed_grouped (v : string) :
  allChars isDigit v = true -> v <> "" -> decimalValue v < 2 ^ 53 ->
  displayFor v = groupThousands (canonicalDigits v) /\
  removeGrouping (displayFor v) = canonicalDigits v.
Proof.
  intros Hv Hne Hlt. rewrite displayFor_integer by assumption.
  split; [reflexivity|]. apply removeGrouping_group, canonicalDigits_digits, Hv.
Qed.

Lemma integer_displayed_grouped_witness :
  displayFor "0012345678" = "12,345,678" /\
  removeGrouping (displayFor "0012345678") = "12345678".
Proof.
  change "12,345,678" with (groupThousands (canonicalDigits "0012345678")).
  change "12345678" with (canonicalDigits "0012345678").
  apply (integer_displayed_grouped "0012345678");
    [reflexivity|discriminate|vm_compute; reflexivity].
Defined.

(** X15. In a field that shows such a value, a character typed at the
    end of the display text is appended to the value (without its leading
    zeros) when it is a digit or a dot, and is ignored otherwise: the
    separators the field shows are not taken into the value. *)
Theorem typing_at_the_end (f : field) (c : ascii) :
  allChars isDigit (value f) = true -> value f <> "" ->
  decimalValue (value f) < 2 ^ 53 ->
  displayValue f = displayFor (value f) ->
  value (change (displayValue f ++ String c "") f)
  = canonicalDigits (value f) ++ (if inClass09Dot c then String c "" else "").
Proof.
  intros Hv Hne Hlt Hsync.
  assert (value (change (displayValue f ++ String c "") f)
          = cleanedValue (displayValue f ++ String c "")) as ->
    by (destruct f; unfold change, dispatch, commit, handleChange;
        cbn [fold_left perform value displayValue];
        destruct (String.eqb _ _); reflexivity).
  rewrite Hsync, displayFor_integer by assumption.
  set (K := canonicalDigits (value f)).
  assert (allChars isDigit K = true) as HK by (apply canonicalDigits_digits, Hv).
  assert (replaceOutside inClass09Dot (groupThousands K ++ String c "")
          = K ++ (if inClass09Dot c then String c "" else "")) as Hstrip.
  { rewrite replaceOutside_app, replaceOutside_group by assumption.
    cbn [replaceOutside]. destruct (inClass09Dot c); reflexivity. }
  rewrite cleanedValue_few_dots; rewrite Hstrip; [reflexivity|].
  rewrite countDots_app, (allDigits_countDots K HK).
  destruct (inClass09Dot c); cbn [countDots]; [destruct (isDot c)|]; simpl; lia.
Qed.

Lemma typing_at_the_end_witness :
  value (change "1,2345" {| value := "1234"; displayValue := "1,234" |}) = "12345".
Proof.
  apply (typing_at_the_end {| value := "1234"; displayValue := "1,234" |} "5");
    [reflexivity|discriminate|vm_compute; reflexivity|vm_compute; reflexivity].
Defined.




End IntegerFacts.

(** ** Typing after the display text *)

Module TypingFacts.
Import JsString JsNumber Props StringFacts Sanitize Rounding Digits InputField Vocabulary
  FieldFacts FormatFacts IntegerFacts.

(** The number of digits after the point of a sanitized text. *)
Lemma fractionDigits_cleanedValue input :
  fractionDigits (cleanedValue input)
  = String.length (digitsOf (afterFirstDot (replaceOutside inClass09Dot input))).
Proof.
  destruct (cleanedValue_closed_form input) as [Hform _]. cbv zeta in Hform.
  set (c := replaceOutside inClass09Dot input) in *.
  unfold fractionDigits. rewrite Hform.
  destruct (countDots c) as [|n] eqn:Ed; cbn [Nat.ltb Nat.leb].
  - rewrite append_nil_r, (afterFirstDot_noDots c Ed).
    rewrite afterFirstDot_noDots by apply beforeFirstDot_noDots. reflexivity.
  - rewrite afterFirstDot_app_dot by apply beforeFirstDot_noDots. reflexivity.
Qed.

Lemma digitsOf_length_le s : (String.length (digitsOf s) <= String.length s)%nat.
Proof.
  unfold digitsOf. induction s as [|c s IH]; [simpl; lia|].
  cbn [replaceOutside]. destruct (isDigit c); simpl; lia.
Qed.

Lemma afterFirstDot_app_noDots a b :
  countDots a = O -> afterFirstDot (a ++ b) = afterFirstDot b.
Proof.
  induction a as [|c a IH]; [reflexivity|]. simpl.
  destruct (isDot c); [discriminate|]. exact IH.
Qed.

Lemma afterFirstDot_length_le s : (String.length (afterFirstDot s) <= String.length s)%nat.
Proof.
  induction s as [|c s IH]; [simpl; lia|]. simpl. destruct (isDot c); lia.
Qed.

(** After the point of the stripped display text of a finite magnitude
    there are at most three characters, a dot and what is typed. *)
Lemma fraction_after_groupedDecimal n rest tail :
  (String.length (digitsOf (afterFirstDot
     (replaceOutside inClass09Dot (groupedDecimal 0 3 n ++ rest ++ tail))))
   <= 3 + String.length (digitsOf (rest ++ tail)))%nat.
Proof.
  unfold groupedDecimal. change (10 ^ Z.of_nat 3)%Z with 1000%Z.
  set (I := decimalDigits (n / 1000)).
  set (F := trimFraction 0 (fixedDigits 3 (n mod 1000))).
  assert (allChars isDigit I = true) as HI by apply decimalDigits_digits.
  assert (allChars isDigit F = true) as HF
    by (apply trimFraction_digits, fixedDigits_digits).
  assert (String.length F <= 3)%nat as HFl.
  { pose proof (proj1 (trimFraction_value (fixedDigits 3 (n mod 1000)))) as H.
    rewrite fixedDigits_length in H. exact H. }
  rewrite !replaceOutside_app, replaceOutside_group by assumption.
  rewrite <- replaceOutside_app. set (T := replaceOutside inClass09Dot (rest ++ tail)).
  assert (String.length (digitsOf T) = String.length (digitsOf (rest ++ tail))) as HT
    by (unfold T; rewrite digitsOf_replaceOutside; reflexivity).
  rewrite append_assoc, afterFirstDot_app_noDots by (apply allDigits_countDots, HI).
  destruct (String.eqb_spec F "") as [HFe|HFe].
  - cbn [replaceOutside append].
    pose proof (digitsOf_length_le (afterFirstDot T)).
    pose proof (afterFirstDot_length_le T).
    assert (String.length (digitsOf (afterFirstDot T)) <= String.length (digitsOf T))%nat.
    { clear. induction T as [|c T IH]; [simpl; lia|].
      cbn [afterFirstDot]. destruct (isDot c) eqn:E.
      - unfold digitsOf at 2. cbn [replaceOutside].
        destruct (isDigit c); simpl; fold (digitsOf T); lia.
      - unfold digitsOf at 2. cbn [replaceOutside].
        destruct (isDigit c); simpl; fold (digitsOf T); lia. }
    lia.
  - rewrite replaceOutside_app, (replaceOutside_id inClass09Dot F)
      by (apply allDigits_inClass, HF).
    cbn [replaceOutside]. change (inClass09Dot ".") with true. cbn iota.
    cbn [append afterFirstDot]. change (isDot ".") with true. cbn iota.
    unfold digitsOf at 1. rewrite !replaceOutside_app.
    rewrite (replaceOutside_id isDigit F HF), length_app.
    fold (digitsOf T). lia.
Qed.


Lemma stripped_fraction_le s :
  (String.length (digitsOf (afterFirstDot (replaceOutside inClass09Dot s)))
   <= String.length s)%nat.
Proof.
  pose proof (digitsOf_length_le (afterFirstDot (replaceOutside inClass09Dot s))).
  pose proof (afterFirstDot_length_le (replaceOutside inClass09Dot s)).
  assert (String.length (replaceOutside inClass09Dot s) <= String.length s)%nat.
  { clear. induction s as [|c s IH]; [simpl; lia|].
    cbn [replaceOutside]. destruct (inClass09Dot c); simpl; lia. }
  lia.
Qed.

(** X17. In a field that shows the display text of its RawAmount value,
    a character typed at the end of that text leaves a value with at most
    four digits after the point: the typing goes on from the display
    text, which keeps three of them. *)
Theorem typing_fraction_cap (f : field) (c : ascii) :
  isRawAmount (value f) = true -> displayValue f = displayFor (value f) ->
  (fractionDigits (value (change (displayValue f ++ String c "") f)) <= 4)%nat.
Proof.
  intros Hraw Hsync.
  rewrite (proj1 (change_state (displayValue f ++ String c "") f)).
  rewrite fractionDigits_cleanedValue, Hsync.
  destruct f as [v d]. cbn [value displayValue] in *. clear Hsync d.
  destruct (isNaN (parseFloat v)) eqn:Hnan.
  - apply (rawAmount_NaN_cases v Hraw) in Hnan.
    etransitivity; [apply stripped_fraction_le|].
    destruct Hnan as [->| ->]; simpl; lia.
  - destruct (displayFor_parsed v Hnan) as (rest & Hrest & ->).
    pose proof (parseFloat_rawAmount_notNegative v Hraw) as Hsign.
    assert (String.length (digitsOf (rest ++ String c "")) <= 1)%nat as Hd.
    { pose proof (digitsOf_length_le (String c "")) as H.
      destruct Hrest as [->| ->]; [exact H|].
      unfold digitsOf in *. cbn [append replaceOutside] in *.
      change (isDigit ".") with false. cbn iota. exact H. }
    rewrite append_assoc.
    destruct (parseFloat v) as [s|s| |s m e]; try discriminate;
      simpl in Hsign; apply negb_true_iff in Hsign; subst s;
      unfold toLocaleString, formatDecimal; cbn [signText].
    + pose proof (fraction_after_groupedDecimal 0 rest (String c "")). simpl append in *. lia.
    + rewrite replaceOutside_app.
      change (replaceOutside inClass09Dot ("" ++ "∞")) with "".
      cbn [append].
      etransitivity; [apply stripped_fraction_le|].
      rewrite length_app. destruct Hrest as [->| ->]; simpl; lia.
    + pose proof (fraction_after_groupedDecimal
                    (roundDecimal (shortestDecimal m e) 3) rest (String c "")).
      simpl append in *. lia.
Qed.

Lemma typing_fraction_cap_witness :
  value (change "1.2356" {| value := "1.23456"; displayValue := "1.235" |}) = "1.2356" /\
  (fractionDigits (value (change "1.2356" {| value := "1.23456";
                                             displayValue := "1.235" |})) <= 4)%nat.
Proof.
  split; [vm_compute; reflexivity|].
  apply (typing_fraction_cap {| value := "1.23456"; displayValue := "1.235" |} "6");
    vm_compute; reflexivity.
Defined.

End TypingFacts.
